(** * tensorflow-caney: band indices and optimizer resolution

    A shallow embedding of [tensorflow_caney/utils/indices.py] and
    [tensorflow_caney/utils/optimizers.py].

    Modelling conventions.
    - Python [str] values are Rocq strings over the ASCII range; [str.lower]
      maps ['A'..'Z'] to ['a'..'z'] and leaves every other character alone.
    - Python exceptions are values of [exn]; a function that may raise returns
      a [result].
    - Array samples are elements of an arbitrary carrier [F] with the
      arithmetic operators of the source left uninterpreted ([Arith]), so that
      a statement about a formula is a statement about which operator is
      applied to which band, in which order.
    - An [xarray.DataArray] of shape (band, y, x) is a list of 2-D planes, the
      coordinate of the band dimension and the ['band_names'] entry of its
      [attrs]. *)

From Stdlib Require Import Ascii String QArith.
From stdpp Require Import base option list strings gmap.

Local Open Scope string_scope.
Local Open Scope list_scope.

(** ** Exceptions and results *)

Inductive exn : Type :=
  | ValueError (msg : string)
  | KeyError (key : string)
  | IndexError
  | NameError (msg : string)
  | OtherError (msg : string)
  | SystemExit (msg : string).

(** [isinstance(e, Exception)]: [SystemExit] derives from [BaseException]
    only, so [except Exception] does not stop it and the interpreter exits. *)
Definition is_Exception (e : exn) : bool :=
  match e with
  | SystemExit _ => false
  | _ => true
  end.

Inductive result (A : Type) : Type :=
  | Ok (a : A)
  | Raise (e : exn).
Arguments Ok {A} a.
Arguments Raise {A} e.

#[global] Instance result_ret : MRet result := fun _ a => Ok a.
#[global] Instance result_bind : MBind result := fun _ _ f m =>
  match m with
  | Ok a => f a
  | Raise e => Raise e
  end.

(** ** Python string primitives *)

Module Py.

(** [c.lower()] on one ASCII character. *)
Definition lower_ascii (c : ascii) : ascii :=
  let n := nat_of_ascii c in
  if (65 <=? n)%nat && (n <=? 90)%nat then ascii_of_nat (n + 32) else c.

(** [s.lower()] *)
Fixpoint lower (s : string) : string :=
  match s with
  | EmptyString => EmptyString
  | String c s' => String (lower_ascii c) (lower s')
  end.

(** [x in l] for a list of strings. *)
Definition mem (x : string) (l : list string) : bool :=
  existsb (String.eqb x) l.

(** [l.index(x)]: the first position holding [x]; [None] stands for the
    [ValueError] that [list.index] raises. *)
Fixpoint index (l : list string) (x : string) : option nat :=
  match l with
  | [] => None
  | y :: l' => if String.eqb y x then Some 0%nat else S <$> index l' x
  end.

(** [all(p(b) for b in l)] *)
Definition all {A} (p : A -> bool) (l : list A) : bool := forallb p l.

Definition backslash : ascii := ascii_of_nat 92.
Definition squote : ascii := ascii_of_nat 39.
Definition dquote : ascii := ascii_of_nat 34.

Definition hex_digit (n : nat) : ascii :=
  ascii_of_nat (if (n <? 10)%nat then 48 + n else 87 + n).

Definition escape (c : ascii) : string := String backslash (String c EmptyString).

(** One character inside [repr(s)], [q] being the quote in use. *)
Definition repr_char (q : ascii) (c : ascii) : string :=
  let n := nat_of_ascii c in
  if Ascii.eqb c backslash then escape backslash
  else if Ascii.eqb c q then escape q
  else if (n =? 9)%nat then escape "t"
  else if (n =? 10)%nat then escape "n"
  else if (n =? 13)%nat then escape "r"
  else if (n <? 32)%nat || (126 <? n)%nat then
    String backslash (String "x"
      (String (hex_digit (n / 16)) (String (hex_digit (n mod 16)) EmptyString)))
  else String c EmptyString.

Fixpoint has_char (c : ascii) (s : string) : bool :=
  match s with
  | EmptyString => false
  | String d s' => Ascii.eqb c d || has_char c s'
  end.

Fixpoint repr_body (q : ascii) (s : string) : string :=
  match s with
  | EmptyString => EmptyString
  | String c s' => repr_char q c ++ repr_body q s'
  end.

(** [repr(s)]: single quotes unless the string holds a single quote and no
    double quote. *)
Definition repr_str (s : string) : string :=
  let q := if has_char squote s && negb (has_char dquote s)
           then dquote else squote in
  String q (repr_body q s ++ String q EmptyString).

Fixpoint join (sep : string) (l : list string) : string :=
  match l with
  | [] => EmptyString
  | [x] => x
  | x :: l' => x ++ sep ++ join sep l'
  end.

(** [repr(l)], which is what an f-string prints for a list. *)
Definition repr_list (l : list string) : string :=
  "[" ++ join ", " (map repr_str l) ++ "]".

End Py.

(** ** [_get_band_locations] *)

Definition not_in_raster_bands (b : string) (bands : list string) : string :=
  b ++ " not in raster bands " ++ Py.repr_list bands.

Fixpoint _get_band_locations (bands : list string) (requested_bands : list string)
  : result (list nat) :=
  match requested_bands with
  | [] => Ok []
  | b :: rest =>
      match Py.index bands (Py.lower b) with
      | None => Raise (ValueError (not_in_raster_bands b bands))
      | Some i => locations ← _get_band_locations bands rest; Ok (i :: locations)
      end
  end.

(** ** Samples, planes and data arrays *)

(** The arithmetic of the samples. [const] embeds the numeric literals of the
    source; the binary operators are those of Python on floating-point arrays
    ([+], [-], [*], [/], [**]). *)
Class Arith (F : Type) : Type := {
  const : Q -> F;
  fadd : F -> F -> F;
  fsub : F -> F -> F;
  fmul : F -> F -> F;
  fdiv : F -> F -> F;
  fpow : F -> F -> F
}.

Section Raster.
Context {F : Type} `{Arith F}.

(** One band: a (y, x) grid of samples. *)
Definition plane : Type := list (list F).

(** [a op b] on two planes of the same raster. *)
Definition elementwise (op : F -> F -> F) (a b : plane) : plane :=
  zip_with (zip_with op) a b.

(** [c op a] and [a op c] for a scalar [c], broadcast over the plane. *)
Definition scalar_l (op : F -> F -> F) (c : F) (a : plane) : plane :=
  map (map (op c)) a.
Definition scalar_r (op : F -> F -> F) (a : plane) (c : F) : plane :=
  map (map (fun x => op x c)) a.

(** [band] is the coordinate of the band dimension: one label per band, or
    the empty list when the dimension carries no coordinate. *)
Record DataArray : Type := {
  values : list plane;
  band : list Z;
  attrs_band_names : option (list string)
}.

(** [raster.attrs['band_names']] *)
Definition band_names (raster : DataArray) : result (list string) :=
  match attrs_band_names raster with
  | Some l => Ok l
  | None => Raise (KeyError "band_names")
  end.

(** [raster[i, :, :]] *)
Definition isel (raster : DataArray) (i : nat) : result plane :=
  match values raster !! i with
  | Some p => Ok p
  | None => Raise IndexError
  end.

(** [index.expand_dims(dim="band", axis=0)]: a one-band array; the result of
    array arithmetic carries no attributes and the new dimension has no
    coordinate yet. *)
Definition expand_dims (index : plane) : DataArray :=
  {| values := [index]; band := []; attrs_band_names := None |}.

(** [index.coords['band'] = labels] *)
Definition assign_band (index : DataArray) (labels : list Z) : DataArray :=
  {| values := values index; band := labels;
     attrs_band_names := attrs_band_names index |}.

(** The text of the error [xr.concat] raises over a coordinate that only one
    of the arrays has; it varies with the version of xarray. *)
Definition coordinate_not_in_all : string :=
  "coordinate 'band' not present in all datasets.".

(** [xr.concat([a, b], dim='band')]: the bands of [a] followed by those of
    [b], with the attributes of [a]. The coordinate of the band dimension is
    concatenated too, and has to be there on both sides or on neither. *)
Definition concat (a b : DataArray) : result DataArray :=
  match band a, band b with
  | [], _ :: _ | _ :: _, [] => Raise (ValueError coordinate_not_in_all)
  | _, _ =>
      Ok {| values := values a ++ values b;
            band := band a ++ band b;
            attrs_band_names := attrs_band_names a |}
  end.

Definition unpack_error {A} : result A :=
  Raise (ValueError "not enough values to unpack").

(** ** Index functions *)

Definition bai (raster : DataArray) : result DataArray :=
  names ← band_names raster;
  locs ← _get_band_locations names ["red"; "nir1"];
  match locs with
  | [red; nir1] =>
      r ← isel raster red;
      n ← isel raster nir1;
      Ok (expand_dims
            (scalar_l fdiv (const 1)
               (elementwise fadd
                  (scalar_r fpow (scalar_l fsub (const (1 # 10)) r) (const 2))
                  (scalar_r fpow (scalar_l fsub (const (6 # 100)) n) (const 2)))))
  | _ => unpack_error
  end.

Definition cig (raster : DataArray) : result DataArray :=
  names ← band_names raster;
  locs ← _get_band_locations names ["nir1"; "green"];
  match locs with
  | [nir1; green] =>
      n ← isel raster nir1;
      g ← isel raster green;
      Ok (expand_dims (scalar_r fsub (elementwise fdiv n g) (const 1)))
  | _ => unpack_error
  end.

(** Lines 72-74 of [cire]: the list of names handed to
    [_get_band_locations]. *)
Definition cire_bands (names : list string) : list string :=
  let bands := ["nir1"; "rededge"] in
  if negb (Py.all (fun b => Py.mem b bands) names) then ["nir1"; "red"] else bands.

Definition cire (raster : DataArray) : result DataArray :=
  names ← band_names raster;
  locs ← _get_band_locations names (cire_bands names);
  match locs with
  | [nir1; rededge] =>
      n ← isel raster nir1;
      e ← isel raster rededge;
      Ok (expand_dims (scalar_r fsub (elementwise fdiv n e) (const 1)))
  | _ => unpack_error
  end.

Definition cm (raster : DataArray) : result DataArray :=
  names ← band_names raster;
  locs ← _get_band_locations names ["swir1"; "swir2"];
  match locs with
  | [swir1; swir2] =>
      a ← isel raster swir1;
      b ← isel raster swir2;
      Ok (expand_dims (elementwise fdiv a b))
  | _ => unpack_error
  end.

Definition cs1 (raster : DataArray) : result DataArray :=
  names ← band_names raster;
  locs ← _get_band_locations names ["nir1"; "red"; "blue"; "green"];
  match locs with
  | [nir1; red; blue; green] =>
      n ← isel raster nir1;
      b ← isel raster blue;
      g ← isel raster green;
      r ← isel raster red;
      Ok (expand_dims
            (elementwise fdiv (scalar_l fmul (const 3) n)
               (elementwise fadd (elementwise fadd b g) r)))
  | _ => unpack_error
  end.

Definition cs2 (raster : DataArray) : result DataArray :=
  names ← band_names raster;
  locs ← _get_band_locations names ["nir1"; "red"; "blue"; "green"];
  match locs with
  | [nir1; red; blue; green] =>
      b ← isel raster blue;
      g ← isel raster green;
      r ← isel raster red;
      n ← isel raster nir1;
      Ok (expand_dims
            (scalar_r fdiv
               (elementwise fadd (elementwise fadd (elementwise fadd b g) r) n)
               (const 4)))
  | _ => unpack_error
  end.

Definition dvi (raster : DataArray) : result DataArray :=
  names ← band_names raster;
  locs ← _get_band_locations names ["nir1"; "red"];
  match locs with
  | [nir1; red] =>
      n ← isel raster nir1;
      r ← isel raster red;
      Ok (expand_dims (elementwise fsub n r))
  | _ => unpack_error
  end.

Definition dwi (raster : DataArray) : result DataArray :=
  names ← band_names raster;
  locs ← _get_band_locations names ["nir1"; "green"];
  match locs with
  | [nir1; green] =>
      g ← isel raster green;
      n ← isel raster nir1;
      Ok (expand_dims (elementwise fsub g n))
  | _ => unpack_error
  end.

Definition evi (raster : DataArray) : result DataArray :=
  names ← band_names raster;
  locs ← _get_band_locations names ["red"; "blue"; "nir1"];
  match locs with
  | [red; blue; nir1] =>
      n ← isel raster nir1;
      r ← isel raster red;
      b ← isel raster blue;
      Ok (expand_dims
            (elementwise fdiv
               (scalar_l fmul (const (25 # 10)) (elementwise fsub n r))
               (scalar_r fadd
                  (elementwise fsub
                     (elementwise fadd n (scalar_l fmul (const 6) r))
                     (scalar_l fmul (const (75 # 10)) b))
                  (const 1))))
  | _ => unpack_error
  end.

(** Lines 177-179 of [fdi]. *)
Definition fdi_bands (names : list string) : list string :=
  let bands := ["blue"; "nir2"; "rededge"] in
  if negb (Py.all (fun b => Py.mem b bands) names) then ["blue"; "nir1"; "red"] else bands.

Definition fdi (raster : DataArray) : result DataArray :=
  names ← band_names raster;
  locs ← _get_band_locations names (fdi_bands names);
  match locs with
  | [blue; nir; red] =>
      n ← isel raster nir;
      r ← isel raster red;
      b ← isel raster blue;
      Ok (expand_dims (elementwise fsub n (elementwise fadd r b)))
  | _ => unpack_error
  end.

Definition gndvi (raster : DataArray) : result DataArray :=
  names ← band_names raster;
  locs ← _get_band_locations names ["nir1"; "green"];
  match locs with
  | [nir1; green] =>
      n ← isel raster nir1;
      g ← isel raster green;
      Ok (expand_dims
            (elementwise fdiv (elementwise fsub n g) (elementwise fadd n g)))
  | _ => unpack_error
  end.

Definition ndvi (raster : DataArray) : result DataArray :=
  names ← band_names raster;
  locs ← _get_band_locations names ["nir1"; "red"];
  match locs with
  | [nir1; red] =>
      n ← isel raster nir1;
      r ← isel raster red;
      Ok (expand_dims
            (elementwise fdiv (elementwise fsub n r) (elementwise fadd n r)))
  | _ => unpack_error
  end.

Definition ndwi (raster : DataArray) : result DataArray :=
  names ← band_names raster;
  locs ← _get_band_locations names ["nir1"; "green"];
  match locs with
  | [nir1; green] =>
      g ← isel raster green;
      n ← isel raster nir1;
      Ok (expand_dims
            (elementwise fdiv (elementwise fsub g n) (elementwise fadd g n)))
  | _ => unpack_error
  end.

Definition si (raster : DataArray) : result DataArray :=
  names ← band_names raster;
  locs ← _get_band_locations names ["red"; "blue"; "green"];
  match locs with
  | [red; blue; green] =>
      b ← isel raster blue;
      g ← isel raster green;
      r ← isel raster red;
      Ok (expand_dims
            (scalar_r fpow
               (elementwise fsub b (elementwise fdiv g r))
               (fdiv (const 1) (const 3))))
  | _ => unpack_error
  end.

Definition sr (raster : DataArray) : result DataArray :=
  names ← band_names raster;
  locs ← _get_band_locations names ["nir1"; "red"];
  match locs with
  | [nir1; red] =>
      n ← isel raster nir1;
      r ← isel raster red;
      Ok (expand_dims (elementwise fdiv n r))
  | _ => unpack_error
  end.

End Raster.

Arguments plane F : clear implicits.
Arguments DataArray F : clear implicits.

(** ** Registry and dispatch *)

Section Registry.
Context {F : Type} `{Arith F}.

Definition index_function : Type := DataArray F -> result (DataArray F).

Definition indices_registry : gmap string index_function :=
  list_to_map
    [ ("bai", bai); ("cig", cig); ("cire", cire); ("cm", cm);
      ("cs1", cs1); ("cs2", cs2); ("dvi", dvi); ("dwi", dwi);
      ("fdi", fdi); ("gndvi", gndvi); ("ndvi", ndvi); ("ndwi", ndwi);
      ("si", si); ("sr", sr) ].

Definition invalid_indices_mapping (index_key : string) : string :=
  "Invalid indices mapping: " ++ index_key ++ ".".

Definition _get_index_function (index_key : string) : result index_function :=
  match indices_registry !! Py.lower index_key with
  | Some f => Ok f
  | None => Raise (ValueError (invalid_indices_mapping index_key))
  end.

(** ** [add_indices]

    After line 307 the local [input_bands] and [xraster.attrs['band_names']]
    are one and the same list object, and [xr.concat] hands the attributes of
    its first argument on to its result, so the [append] of line 327 is seen
    by the membership test of line 313. The loop state therefore holds that
    list once, in [input_bands]; [xraster] rebuilds the array around it.

    The new band is given a coordinate on line 323, so the [xr.concat] of
    line 324 raises when the raster has none.

    The parameter [factor] is never read and is left out; the parameter
    [xraster] is called [xr] where the loop variable of the same name would
    hide it. *)

Record frame : Type := {
  xraster_values : list (plane F);
  xraster_band : list Z;
  input_bands : list string;
  n_bands : nat
}.

Definition xraster (st : frame) : DataArray F :=
  {| values := xraster_values st;
     band := xraster_band st;
     attrs_band_names := Some (input_bands st) |}.

(** One turn of the [for band_id in output_bands] loop. *)
Definition add_band (st : frame) (band_id : string) : result frame :=
  if negb (Py.mem band_id (input_bands st)) then
    let n_bands' := (n_bands st + 1)%nat in
    index_function ← _get_index_function band_id;
    new_index ← index_function (xraster st);
    let new_index := assign_band new_index [Z.of_nat n_bands'] in
    xraster' ← concat (xraster st) new_index;
    Ok {| xraster_values := values xraster';
          xraster_band := band xraster';
          input_bands := input_bands st ++ [band_id];
          n_bands := n_bands' |}
  else Ok st.

Fixpoint add_bands (st : frame) (output_bands : list string) : result frame :=
  match output_bands with
  | [] => Ok st
  | band_id :: rest => st' ← add_band st band_id; add_bands st' rest
  end.

(** Lines 304-308: the state in which the loop is entered. *)
Definition enter (xr : DataArray F) (input_bands : list string) : frame :=
  let input_bands := map Py.lower input_bands in
  {| xraster_values := values xr;
     xraster_band := band xr;
     input_bands := input_bands;
     n_bands := length input_bands |}.

Definition add_indices (xr : DataArray F) (input_bands output_bands : list string)
  : result (DataArray F) :=
  let output_bands := map Py.lower output_bands in
  st ← add_bands (enter xr input_bands) output_bands;
  Ok (xraster st).

End Registry.

(** ** [get_optimizer] *)

Section Optimizers.

(** The objects of the interpreter, Python's [eval] in the globals of
    [optimizers.py], and the [repr] of the three imported modules. *)
Variable object : Type.
Variable eval : string -> result object.
Variables tf sm tfa : string.

Definition accepted_optimizers (err : string) : string :=
  err ++ ". Accepted optimizers from " ++ tf ++ ", " ++ sm ++ ", " ++ tfa.

Definition get_optimizer (optimizer : string) : result object :=
  match eval optimizer with
  | Ok optimizer => Ok optimizer
  | Raise (NameError err) => Raise (SystemExit (accepted_optimizers err))
  | Raise e => Raise e
  end.

End Optimizers.

Arguments get_optimizer {object} eval tf sm tfa optimizer.

(** An interpreter that knows one name, for running [get_optimizer]: the
    objects are the [repr] strings of what the expression denotes. *)
Definition toy_eval (expression : string) : result string :=
  if String.eqb expression "tf.keras.optimizers.Adam"
  then Ok "<class 'keras.optimizers.Adam'>"
  else if String.eqb expression "keras.optimizers.Adam"
  then Raise (NameError "name 'keras' is not defined")
  else Raise (OtherError "SyntaxError").

(** ** A free term algebra for the samples

    Interpreting the operators as constructors makes the value of an index
    a record of the formula that produced it. *)

Inductive term : Type :=
  | Px (band_name : string)
  | Num (q : Q)
  | Plus (a b : term)
  | Minus (a b : term)
  | Times (a b : term)
  | Over (a b : term)
  | Power (a b : term).

#[global] Instance term_arith : Arith term :=
  {| const := Num; fadd := Plus; fsub := Minus; fmul := Times; fdiv := Over;
     fpow := Power |}.

(** A raster of one pixel per band, the sample of each band being its name. *)
Definition pixel_raster (names : list string) : DataArray term :=
  {| values := map (fun n => [[Px n]]) names;
     band := map Z.of_nat (seq 1 (length names));
     attrs_band_names := Some names |}.

(** * Vocabulary of the specification

    The notions the statements below are phrased in. None of them is part of
    the program. *)

(** A position [i] answers the request [b]: it is the first position of
    [bands] holding the lower-cased request. *)
Definition locates (bands : list string) (b : string) (i : nat) : Prop :=
  bands !! i = Some (Py.lower b) /\ forall j, (j < i)%nat -> bands !! j <> Some (Py.lower b).

(** The reading of the band-location contract in which a requested name
    counts as present when the name itself is an entry of the band list. *)
Definition locations_verbatim (bands requested : list string) : Prop :=
  (Forall (fun b => b ∈ bands) requested ->
   exists locs, _get_band_locations bands requested = Ok locs /\
                Forall2 (fun b i => bands !! i = Some b) requested locs)
  /\ (Exists (fun b => b ∉ bands) requested ->
      exists b, (b ∈ requested) /\ (b ∉ bands) /\
                _get_band_locations bands requested
                = Raise (ValueError (not_in_raster_bands b bands))).

(** The keys of [indices_registry]. *)
Definition registered : list string :=
  ["bai"; "cig"; "cire"; "cm"; "cs1"; "cs2"; "dvi"; "dwi";
   "fdi"; "gndvi"; "ndvi"; "ndwi"; "si"; "sr"].

Section Vocabulary.
Context {F : Type} `{Arith F}.

(** The sample of a plane at row [y], column [x]. *)
Definition sample (p : plane F) (y x : nat) : option F :=
  row ← p !! y; row !! x.

(** The band a name stands for: the plane at the first position of that name
    in the band-name metadata. *)
Definition band_named (raster : DataArray F) (name : string) : option (plane F) :=
  names ← attrs_band_names raster;
  i ← Py.index names name;
  values raster !! i.

(** Sample by sample, the plane [index] is [nir - (red + blue)] over the
    planes [N], [R] and [B]. *)
Definition fdi_of (N R B index : plane F) : Prop :=
  forall y x,
    sample index y x
    = n ← sample N y x; r ← sample R y x; b ← sample B y x;
      Some (fsub n (fadd r b)).

(** The formula the specification gives for [fdi]: the band 'nir2' when the
    raster has it, 'nir1' otherwise, minus the sum of 'red' and 'blue'. *)
Definition fdi_as_specified (raster : DataArray F) : Prop :=
  forall names N R B,
    attrs_band_names raster = Some names ->
    band_named raster (if Py.mem "nir2" names then "nir2" else "nir1") = Some N ->
    band_named raster "red" = Some R ->
    band_named raster "blue" = Some B ->
    exists index, fdi raster = Ok (expand_dims index) /\ fdi_of N R B index.

(** The reading of the dispatch contract in which a name counts as
    registered when the name itself is a key of the registry. *)
Definition dispatch_verbatim (index_key : string) : Prop :=
  indices_registry (F := F) !! index_key = None ->
  _get_index_function (F := F) index_key
  = Raise (ValueError (invalid_indices_mapping index_key)).

(** The states the loop of [add_indices] passes through: the state reached
    at the end of each completed turn, up to the turn that raises (if any). *)
Fixpoint add_bands_trace (st : frame) (output_bands : list string) : list frame :=
  match output_bands with
  | [] => []
  | band_id :: rest =>
      match add_band st band_id with
      | Ok st' => st' :: add_bands_trace st' rest
      | Raise _ => []
      end
  end.

(** The fifteen index functions of the module: the fourteen of the registry
    and [evi]. *)
Definition index_functions : list (index_function (F := F)) :=
  [bai; cig; cire; cm; cs1; cs2; dvi; dwi; evi; fdi; gndvi; ndvi; ndwi; si; sr].


(** The band-name list and the band axis have the same length. *)
Definition consistent (st : frame (F := F)) : Prop :=
  length (input_bands st) = length (xraster_values st).

(** What the specification says of [add_indices] on a four-band raster [xr]
    with the four band names as input and 'ndvi' as the one new output. *)
Definition appends_ndvi (xr : DataArray F) : Prop :=
  exists index r,
    ndvi {| values := values xr; band := band xr;
            attrs_band_names := Some ["blue"; "green"; "red"; "nir1"] |}
    = Ok (expand_dims index)
    /\ add_indices xr ["blue"; "green"; "red"; "nir1"]
                      ["blue"; "green"; "red"; "nir1"; "ndvi"] = Ok r
    /\ length (values r) = 5%nat
    /\ attrs_band_names r = Some (["blue"; "green"; "red"; "nir1"] ++ ["ndvi"])
    /\ values r = values xr ++ [index]
    /\ values r !! 4%nat = Some index.

(** The reading of idempotence in which the second call is given the same
    [input_bands] as the first. *)
Definition second_call_same_inputs
    (xr : DataArray F) (input_bands output_bands : list string) : Prop :=
  forall r1,
    add_indices xr input_bands output_bands = Ok r1 ->
    exists r2,
      add_indices r1 input_bands output_bands = Ok r2 /\
      length (values r2) = length (values r1) /\
      attrs_band_names r2 = attrs_band_names r1.

End Vocabulary.

(** * Properties *)

(** ** Python primitives *)

Lemma lower_ascii_idemp c : Py.lower_ascii (Py.lower_ascii c) = Py.lower_ascii c.
Proof. destruct c as [[] [] [] [] [] [] [] []]; reflexivity. Qed.

Lemma lower_idemp s : Py.lower (Py.lower s) = Py.lower s.
Proof.
  induction s as [|c s IH]; simpl; [reflexivity|].
  by rewrite lower_ascii_idemp, IH.
Qed.

Lemma mem_true x l : Py.mem x l = true <-> x ∈ l.
Proof.
  unfold Py.mem. rewrite existsb_exists. split.
  - intros (y & Hy & Heq). apply String.eqb_eq in Heq. subst.
    by apply list_elem_of_In.
  - intros Hx. exists x. split; [by apply list_elem_of_In|apply String.eqb_refl].
Qed.

Lemma mem_false x l : Py.mem x l = false <-> x ∉ l.
Proof.
  rewrite <- mem_true. destruct (Py.mem x l); intuition congruence.
Qed.

(** [l.index(x)] is the first position of [x]. *)
Lemma index_Some l x i :
  Py.index l x = Some i <->
  l !! i = Some x /\ forall j, (j < i)%nat -> l !! j <> Some x.
Proof.
  revert i. induction l as [|y l IH]; intros i; simpl.
  - split; [done|]. by intros [? _].
  - destruct (String.eqb_spec y x) as [->|Hne].
    + split.
      * intros [= <-]. split; [done|]. intros j Hj. lia.
      * intros [Hi Hfirst]. destruct i as [|i]; [done|].
        exfalso. apply (Hfirst 0%nat); [lia|done].
    + destruct i as [|i].
      * split.
        -- destruct (Py.index l x); done.
        -- intros [[= ?] _]. done.
      * split.
        -- intros Hs. destruct (Py.index l x) as [k|]; [|done].
           injection Hs as <-. destruct (proj1 (IH k) eq_refl) as [Hk Hfirst].
           split; [done|]. intros [|j] Hj; simpl; [congruence|].
           apply Hfirst. lia.
        -- intros [Hi Hfirst].
           assert (Py.index l x = Some i) as ->; [|done].
           apply IH. split; [done|]. intros j Hj. apply (Hfirst (S j)). lia.
Qed.

Lemma index_None l x : Py.index l x = None <-> x ∉ l.
Proof.
  induction l as [|y l IH]; simpl.
  - split; [intros _; apply not_elem_of_nil|done].
  - destruct (String.eqb_spec y x) as [->|Hne].
    + split; [done|]. intros Hn. destruct Hn. left.
    + rewrite not_elem_of_cons. destruct (Py.index l x); simpl.
      * split; [done|]. intros [_ Hn]. apply IH in Hn. done.
      * split; [|done]. intros _. split; [congruence|by apply IH].
Qed.

(** ** Band locations *)

Example locations_nir1_red :
  _get_band_locations ["blue"; "green"; "red"; "nir1"] ["nir1"; "red"] = Ok [3; 2]%nat.
Proof. reflexivity. Qed.

Example locations_swir1 :
  _get_band_locations ["blue"; "green"; "red"; "nir1"] ["swir1"]
  = Raise (ValueError "swir1 not in raster bands ['blue', 'green', 'red', 'nir1']").
Proof. reflexivity. Qed.

Example locations_quoting :
  _get_band_locations ["it's"] ["red"]
  = Raise (ValueError (String.append "red not in raster bands ["
                         (String Py.dquote (String.append "it's"
                            (String Py.dquote "]"))))).
Proof. reflexivity. Qed.

Lemma get_band_locations_found bands requested :
  Forall (fun b => Py.lower b ∈ bands) requested ->
  exists locs, _get_band_locations bands requested = Ok locs /\
               Forall2 (locates bands) requested locs.
Proof.
  induction 1 as [|b rest Hb _ IH]; simpl.
  - exists []. split; [done|constructor].
  - destruct IH as (locs & -> & Hlocs).
    destruct (Py.index bands (Py.lower b)) as [i|] eqn:Hi.
    + exists (i :: locs). split; [done|]. constructor; [|done].
      by apply index_Some.
    + apply index_None in Hi. done.
Qed.

Lemma get_band_locations_missing bands pre b post :
  Forall (fun b => Py.lower b ∈ bands) pre ->
  Py.lower b ∉ bands ->
  _get_band_locations bands (pre ++ b :: post)
  = Raise (ValueError (not_in_raster_bands b bands)).
Proof.
  intros Hpre Hb. induction Hpre as [|a pre Ha _ IH]; simpl.
  - apply index_None in Hb. by rewrite Hb.
  - destruct (Py.index bands (Py.lower a)) as [i|] eqn:Hi.
    + by rewrite IH.
    + apply index_None in Hi. done.
Qed.

(** C6, as stated, fails in both directions: ['NIR1'] is absent from
    [['nir1']] and is located all the same, and it is present in [['NIR1']]
    and is not found there. *)
Lemma locations_verbatim_fails :
  ~ locations_verbatim ["nir1"] ["NIR1"] /\ ~ locations_verbatim ["NIR1"] ["NIR1"].
Proof.
  split.
  - intros [_ Habsent]. destruct Habsent as (b & _ & _ & Hraise).
    + constructor. intros Hin. apply mem_true in Hin. discriminate Hin.
    + discriminate Hraise.
  - intros [Hpresent _]. destruct Hpresent as (locs & Hok & _).
    + constructor; [|constructor]. apply mem_true. reflexivity.
    + discriminate Hok.
Qed.

(** C6 (amended): presence is judged on the lower-cased request. When the
    lower-cased form of every requested name is in the band list, the result
    is the list of first positions of those forms, in the order requested;
    otherwise the call raises the error whose message is made of the first
    offending name, as requested, and of the whole band list. *)
Theorem get_band_locations_lowered (bands requested : list string) :
  (Forall (fun b => Py.lower b ∈ bands) requested ->
   exists locs, _get_band_locations bands requested = Ok locs /\
                Forall2 (locates bands) requested locs)
  /\ (forall pre b post,
        requested = pre ++ b :: post ->
        Forall (fun b => Py.lower b ∈ bands) pre ->
        Py.lower b ∉ bands ->
        _get_band_locations bands requested
        = Raise (ValueError (b ++ " not in raster bands " ++ Py.repr_list bands))).
Proof.
  split.
  - apply get_band_locations_found.
  - intros pre b post -> Hpre Hb. by apply get_band_locations_missing.
Qed.

Lemma get_band_locations_lowered_witness :
  (exists locs,
      _get_band_locations ["blue"; "green"; "red"; "nir1"] ["NIR1"; "red"] = Ok locs /\
      Forall2 (locates ["blue"; "green"; "red"; "nir1"]) ["NIR1"; "red"] locs)
  /\ _get_band_locations ["blue"; "green"; "red"; "nir1"] ["red"; "swir1"; "nir1"]
     = Raise (ValueError
                "swir1 not in raster bands ['blue', 'green', 'red', 'nir1']").
Proof.
  split.
  - apply (proj1 (get_band_locations_lowered
                    ["blue"; "green"; "red"; "nir1"] ["NIR1"; "red"])).
    repeat constructor; apply mem_true; reflexivity.
  - apply (proj2 (get_band_locations_lowered
                    ["blue"; "green"; "red"; "nir1"] ["red"; "swir1"; "nir1"])
             ["red"] "swir1" ["nir1"]).
    + reflexivity.
    + repeat constructor; apply mem_true; reflexivity.
    + apply mem_false. reflexivity.
Defined.



(** ** Planes, sample by sample *)

Section Samples.
Context {F : Type} `{Arith F}.

Lemma sample_elementwise op (a b : plane F) y x :
  sample (elementwise op a b) y x
  = u ← sample a y x; v ← sample b y x; Some (op u v).
Proof.
  unfold sample, elementwise, plane in *. rewrite lookup_zip_with.
  destruct (a !! y) as [ra|]; simpl; [|done].
  destruct (b !! y) as [rb|]; simpl.
  - rewrite lookup_zip_with. done.
  - by destruct (ra !! x).
Qed.

Lemma sample_scalar_l op c (a : plane F) y x :
  sample (scalar_l op c a) y x = op c <$> sample a y x.
Proof.
  unfold sample, scalar_l, plane in *. rewrite list_lookup_fmap.
  destruct (a !! y) as [ra|]; simpl; [|done].
  by rewrite list_lookup_fmap.
Qed.

Lemma sample_scalar_r op (a : plane F) c y x :
  sample (scalar_r op a c) y x = (fun u => op u c) <$> sample a y x.
Proof.
  unfold sample, scalar_r, plane in *. rewrite list_lookup_fmap.
  destruct (a !! y) as [ra|]; simpl; [|done].
  by rewrite list_lookup_fmap.
Qed.

(** A named band is found by [_get_band_locations] and read by [isel]. *)
Lemma band_named_inv (raster : DataArray F) name p :
  band_named raster name = Some p ->
  exists names i,
    attrs_band_names raster = Some names /\
    Py.index names name = Some i /\
    isel raster i = Ok p.
Proof.
  unfold band_named, isel. intros Hp.
  destruct (attrs_band_names raster) as [names|]; [|done]. simpl in Hp.
  destruct (Py.index names name) as [i|] eqn:Hi; [|done]. simpl in Hp.
  exists names, i. split; [done|]. split; [done|]. by rewrite Hp.
Qed.

End Samples.

(** Unfolds the hypotheses [band_named raster _ = Some _] of the context into
    the position of each name and the plane read there. *)
Ltac resolve_bands :=
  repeat match goal with
  | Hp : band_named ?raster ?name = Some ?p |- _ =>
      let names := fresh "names" in
      let i := fresh "i" in
      let Hn := fresh "Hnames" in
      let Hi := fresh "Hindex" in
      let Hs := fresh "Hisel" in
      apply band_named_inv in Hp as (names & i & Hn & Hi & Hs)
  end;
  repeat match goal with
  | H1 : attrs_band_names ?r = Some ?n1, H2 : attrs_band_names ?r = Some ?n2 |- _ =>
      rewrite H1 in H2; injection H2 as <-
  end.

(** Lower-cases the literal names of the goal and of the context. *)
Ltac lower_literals :=
  repeat match goal with
  | |- context [Py.lower_ascii ?c] =>
      let v := eval vm_compute in (Py.lower_ascii c) in
      change (Py.lower_ascii c) with v
  | H : context [Py.lower_ascii ?c] |- _ =>
      let v := eval vm_compute in (Py.lower_ascii c) in
      change (Py.lower_ascii c) with v in H
  end.

(** Runs the body of an index function whose bands have been resolved. *)
Ltac run_index :=
  unfold band_names;
  repeat match goal with
  | H : attrs_band_names _ = Some _ |- _ => rewrite H
  end;
  simpl; lower_literals;
  repeat match goal with
  | H : Py.index _ _ = Some _ |- _ => rewrite H; simpl
  end;
  repeat match goal with
  | H : isel _ _ = Ok _ |- _ => rewrite H; simpl
  end.

(** ** The shadow index *)

(** C8: on a raster with bands named blue, green and red, [si] returns one
    band whose sample at every pixel is [(blue - green / red) ** (1 / 3)]:
    the quotient is taken first, subtracted from blue, and the power applies
    to the difference. On the raster whose samples are the band names, the
    result is neither [((blue - green) / red) ** (1 / 3)] nor
    [(blue * green * red) ** (1 / 3)]. *)
Theorem si_precedence {F : Type} `{Arith F} (raster : DataArray F) (B G R : plane F) :
  band_named raster "blue" = Some B ->
  band_named raster "green" = Some G ->
  band_named raster "red" = Some R ->
  (exists index,
      si raster = Ok (expand_dims index) /\
      forall y x,
        sample index y x
        = b ← sample B y x; g ← sample G y x; r ← sample R y x;
          Some (fpow (fsub b (fdiv g r)) (fdiv (const 1) (const 3))))
  /\ si (pixel_raster ["blue"; "green"; "red"])
     <> Ok (expand_dims
              [[Power (Over (Minus (Px "blue") (Px "green")) (Px "red"))
                      (Over (Num 1) (Num 3))]])
  /\ si (pixel_raster ["blue"; "green"; "red"])
     <> Ok (expand_dims
              [[Power (Times (Times (Px "blue") (Px "green")) (Px "red"))
                      (Over (Num 1) (Num 3))]]).
Proof.
  intros HB HG HR. split; [|split; discriminate].
  resolve_bands. eexists. split.
  - unfold si. run_index. reflexivity.
  - intros y x. rewrite sample_scalar_r, sample_elementwise, sample_elementwise.
    destruct (sample B y x) as [b|]; simpl; [|done].
    destruct (sample G y x) as [g|]; simpl; [|done].
    by destruct (sample R y x).
Qed.

Lemma si_precedence_witness :
  exists index,
    si (pixel_raster ["blue"; "green"; "red"; "nir1"]) = Ok (expand_dims index) /\
    sample index 0 0
    = Some (Power (Minus (Px "blue") (Over (Px "green") (Px "red")))
                  (Over (Num 1) (Num 3))).
Proof.
  destruct (si_precedence (pixel_raster ["blue"; "green"; "red"; "nir1"])
              [[Px "blue"]] [[Px "green"]] [[Px "red"]]
              eq_refl eq_refl eq_refl) as [(index & Hsi & Hsample) _].
  exists index. split; [exact Hsi|]. rewrite Hsample. reflexivity.
Defined.

(** ** Band sets of [cire] and [fdi] *)




Lemma fdi_bands_cases names :
  fdi_bands names = ["blue"; "nir2"; "rededge"] \/
  fdi_bands names = ["blue"; "nir1"; "red"].
Proof. unfold fdi_bands. destruct (negb _); auto. Qed.

(** C1: the band set is chosen by asking whether the raster's names all
    belong to the canonical list, not whether the canonical names belong to
    the raster. A five-band raster that has both 'nir1' and 'rededge' is
    divided by 'red'; a raster with 'rededge' and no 'red' is refused; an
    eight-band raster with 'nir2' gets the four-band formula. *)
Theorem fallback_taken_with_canonical_bands :
  cire (pixel_raster ["blue"; "green"; "red"; "nir1"; "rededge"])
  = Ok (expand_dims [[Minus (Over (Px "nir1") (Px "red")) (Num 1)]])
  /\ cire (pixel_raster ["blue"; "nir1"; "rededge"])
     = Raise (ValueError "red not in raster bands ['blue', 'nir1', 'rededge']")
  /\ cire (pixel_raster ["nir1"; "rededge"])
     = Ok (expand_dims [[Minus (Over (Px "nir1") (Px "rededge")) (Num 1)]])
  /\ fdi (pixel_raster
            ["coastal"; "blue"; "green"; "yellow"; "red"; "rededge"; "nir1"; "nir2"])
     = Ok (expand_dims [[Minus (Px "nir1") (Plus (Px "red") (Px "blue"))]]).
Proof. repeat split; vm_compute; reflexivity. Qed.

(** ** The forest discrimination index *)

Section ForestIndex.
Context {F : Type} `{Arith F}.

Lemma fdi_of_elementwise (N R B : plane F) :
  fdi_of N R B (elementwise fsub N (elementwise fadd R B)).
Proof.
  intros y x. rewrite !sample_elementwise.
  destruct (sample N y x) as [n|]; simpl; [|done].
  destruct (sample R y x) as [r|]; simpl; [|done].
  by destruct (sample B y x).
Qed.

End ForestIndex.

(** C5, as stated, fails: on an eight-band raster with 'nir2' the result is
    built from 'nir1', and where the 'nir2' band is used at all it is
    'rededge', not 'red', that is added to 'blue'. *)
Lemma fdi_as_specified_fails :
  ~ fdi_as_specified
      (pixel_raster
         ["coastal"; "blue"; "green"; "yellow"; "red"; "rededge"; "nir1"; "nir2"])
  /\ fdi (pixel_raster ["blue"; "nir2"; "rededge"])
     = Ok (expand_dims [[Minus (Px "nir2") (Plus (Px "rededge") (Px "blue"))]]).
Proof.
  split; [|reflexivity].
  intros Hspec.
  destruct (Hspec _ [[Px "nir2"]] [[Px "red"]] [[Px "blue"]]
              eq_refl eq_refl eq_refl eq_refl) as (index & Hfdi & Hof).
  vm_compute in Hfdi. injection Hfdi as <-.
  specialize (Hof 0%nat 0%nat). vm_compute in Hof. discriminate Hof.
Qed.

(** C5 (amended): [fdi] returns [nir - (r + blue)] sample by sample, where
    [nir] and [r] are the bands named 'nir2' and 'rededge' when the canonical
    band list is the one resolved, and the bands named 'nir1' and 'red' when
    the fallback list is; on a raster without 'nir2', whatever [fdi] returns
    is 'nir1' minus the sum of 'red' and 'blue'. *)
Theorem fdi_formula {F : Type} `{Arith F} (raster : DataArray F) (names : list string) :
  attrs_band_names raster = Some names ->
  (forall B N R,
      fdi_bands names = ["blue"; "nir2"; "rededge"] ->
      band_named raster "blue" = Some B ->
      band_named raster "nir2" = Some N ->
      band_named raster "rededge" = Some R ->
      exists index, fdi raster = Ok (expand_dims index) /\ fdi_of N R B index)
  /\ (forall B N R,
        fdi_bands names = ["blue"; "nir1"; "red"] ->
        band_named raster "blue" = Some B ->
        band_named raster "nir1" = Some N ->
        band_named raster "red" = Some R ->
        exists index, fdi raster = Ok (expand_dims index) /\ fdi_of N R B index)
  /\ (forall d,
        "nir2" ∉ names ->
        fdi raster = Ok d ->
        exists B N R index,
          band_named raster "blue" = Some B /\
          band_named raster "nir1" = Some N /\
          band_named raster "red" = Some R /\
          d = expand_dims index /\ fdi_of N R B index).
Proof.
  intros Hnames. split; [|split].
  - intros B N R Hsel HB HN HR. resolve_bands.
    exists (elementwise fsub N (elementwise fadd R B)).
    split; [|apply fdi_of_elementwise].
    unfold fdi, band_names. rewrite Hnames. simpl. rewrite Hsel.
    run_index. reflexivity.
  - intros B N R Hsel HB HN HR. resolve_bands.
    exists (elementwise fsub N (elementwise fadd R B)).
    split; [|apply fdi_of_elementwise].
    unfold fdi, band_names. rewrite Hnames. simpl. rewrite Hsel.
    run_index. reflexivity.
  - intros d Hnir2 Hfdi.
    unfold fdi, band_names in Hfdi. rewrite Hnames in Hfdi. simpl in Hfdi.
    destruct (fdi_bands_cases names) as [Hsel|Hsel]; rewrite Hsel in Hfdi.
    + exfalso. apply index_None in Hnir2. simpl in Hfdi. lower_literals.
      destruct (Py.index names "blue"); [|discriminate Hfdi].
      rewrite Hnir2 in Hfdi. discriminate Hfdi.
    + simpl in Hfdi. lower_literals.
      destruct (Py.index names "blue") as [ib|] eqn:Hib; [|discriminate Hfdi].
      destruct (Py.index names "nir1") as [inir|] eqn:Hin; [|discriminate Hfdi].
      destruct (Py.index names "red") as [ired|] eqn:Hir; [|discriminate Hfdi].
      simpl in Hfdi. unfold isel in Hfdi.
      destruct (values raster !! inir) as [N|] eqn:HN; [|discriminate Hfdi].
      destruct (values raster !! ired) as [R|] eqn:HR; [|discriminate Hfdi].
      destruct (values raster !! ib) as [B|] eqn:HB; [|discriminate Hfdi].
      simpl in Hfdi. injection Hfdi as <-.
      exists B, N, R, (elementwise fsub N (elementwise fadd R B)).
      unfold band_named. rewrite Hnames. simpl. rewrite Hib, Hin, Hir. simpl.
      repeat split; try done. apply fdi_of_elementwise.
Qed.

Lemma fdi_formula_witness :
  (exists index,
      fdi (pixel_raster ["blue"; "nir2"; "rededge"]) = Ok (expand_dims index) /\
      fdi_of [[Px "nir2"]] [[Px "rededge"]] [[Px "blue"]] index)
  /\ (exists index,
        fdi (pixel_raster ["blue"; "green"; "red"; "nir1"]) = Ok (expand_dims index) /\
        fdi_of [[Px "nir1"]] [[Px "red"]] [[Px "blue"]] index)
  /\ (exists B N R index,
        band_named (pixel_raster ["blue"; "green"; "red"; "nir1"]) "blue" = Some B /\
        band_named (pixel_raster ["blue"; "green"; "red"; "nir1"]) "nir1" = Some N /\
        band_named (pixel_raster ["blue"; "green"; "red"; "nir1"]) "red" = Some R /\
        expand_dims [[Minus (Px "nir1") (Plus (Px "red") (Px "blue"))]]
        = expand_dims index /\
        fdi_of N R B index).
Proof.
  split; [|split].
  - apply (proj1 (fdi_formula (pixel_raster ["blue"; "nir2"; "rededge"])
                    ["blue"; "nir2"; "rededge"] eq_refl)); reflexivity.
  - apply (proj1 (proj2 (fdi_formula (pixel_raster ["blue"; "green"; "red"; "nir1"])
                           ["blue"; "green"; "red"; "nir1"] eq_refl))); reflexivity.
  - apply (proj2 (proj2 (fdi_formula (pixel_raster ["blue"; "green"; "red"; "nir1"])
                           ["blue"; "green"; "red"; "nir1"] eq_refl))).
    + apply mem_false. reflexivity.
    + reflexivity.
Defined.

(** ** Dispatch *)

Section Dispatch.
Context {F : Type} `{Arith F}.

Lemma registry_lookup_None (key : string) :
  key ∉ registered -> indices_registry (F := F) !! key = None.
Proof.
  unfold registered, indices_registry. intros Hkey. simpl.
  repeat (apply not_elem_of_cons in Hkey as [? Hkey]).
  repeat (rewrite lookup_insert_ne; [|done]).
  apply lookup_empty.
Qed.

(** Every entry of the registry is one of the fourteen index functions. *)
Lemma registry_lookup_Some (key : string) (f : index_function (F := F)) :
  indices_registry !! key = Some f ->
  f ∈ [bai; cig; cire; cm; cs1; cs2; dvi; dwi; fdi; gndvi; ndvi; ndwi; si; sr].
Proof.
  unfold indices_registry. simpl. intros Hf.
  repeat (apply lookup_insert_Some in Hf as [[_ <-]|[_ Hf]];
          [repeat first [apply list_elem_of_here | apply list_elem_of_further]|]).
  by rewrite lookup_empty in Hf.
Qed.

End Dispatch.

(** C7, as stated, fails: ['NDVI'] is not a key of the registry, and the
    dispatch answers with [ndvi]. *)
Lemma dispatch_verbatim_fails :
  ~ dispatch_verbatim (F := term) "NDVI"
  /\ _get_index_function (F := term) "NDVI" = Ok ndvi.
Proof.
  split; [|reflexivity].
  intros Hspec. discriminate Hspec. reflexivity.
Qed.

(** C7 (amended): names are matched after lower-casing. Each of the fourteen
    registered names, and every name whose lower-cased form is one of them
    ('NDVI', 'Ndvi'), yields the index function of that registered name;
    'evi', and every name whose lower-cased form is not a registered name,
    raises the error whose message holds the name exactly as requested. *)
Theorem get_index_function_lowered {F : Type} `{Arith F} :
  (_get_index_function "bai" = Ok bai /\
   _get_index_function "cig" = Ok cig /\
   _get_index_function "cire" = Ok cire /\
   _get_index_function "cm" = Ok cm /\
   _get_index_function "cs1" = Ok cs1 /\
   _get_index_function "cs2" = Ok cs2 /\
   _get_index_function "dvi" = Ok dvi /\
   _get_index_function "dwi" = Ok dwi /\
   _get_index_function "fdi" = Ok fdi /\
   _get_index_function "gndvi" = Ok gndvi /\
   _get_index_function "ndvi" = Ok ndvi /\
   _get_index_function "ndwi" = Ok ndwi /\
   _get_index_function "si" = Ok si /\
   _get_index_function "sr" = Ok sr)
  /\ _get_index_function (F := F) "evi"
     = Raise (ValueError "Invalid indices mapping: evi.")
  /\ (forall index_key,
        (Py.lower index_key = "bai" -> _get_index_function index_key = Ok bai) /\
        (Py.lower index_key = "cig" -> _get_index_function index_key = Ok cig) /\
        (Py.lower index_key = "cire" -> _get_index_function index_key = Ok cire) /\
        (Py.lower index_key = "cm" -> _get_index_function index_key = Ok cm) /\
        (Py.lower index_key = "cs1" -> _get_index_function index_key = Ok cs1) /\
        (Py.lower index_key = "cs2" -> _get_index_function index_key = Ok cs2) /\
        (Py.lower index_key = "dvi" -> _get_index_function index_key = Ok dvi) /\
        (Py.lower index_key = "dwi" -> _get_index_function index_key = Ok dwi) /\
        (Py.lower index_key = "fdi" -> _get_index_function index_key = Ok fdi) /\
        (Py.lower index_key = "gndvi" -> _get_index_function index_key = Ok gndvi) /\
        (Py.lower index_key = "ndvi" -> _get_index_function index_key = Ok ndvi) /\
        (Py.lower index_key = "ndwi" -> _get_index_function index_key = Ok ndwi) /\
        (Py.lower index_key = "si" -> _get_index_function index_key = Ok si) /\
        (Py.lower index_key = "sr" -> _get_index_function index_key = Ok sr))
  /\ (forall index_key,
        Py.lower index_key ∉ registered ->
        _get_index_function (F := F) index_key
        = Raise (ValueError ("Invalid indices mapping: " ++ index_key ++ "."))).
Proof.
  split; [repeat split; reflexivity|]. split; [reflexivity|]. split.
  - intros index_key. unfold _get_index_function.
    repeat split; intros ->; reflexivity.
  - intros index_key Hkey. unfold _get_index_function.
    by rewrite (registry_lookup_None _ Hkey).
Qed.

Lemma get_index_function_lowered_witness :
  _get_index_function (F := term) "NDVI" = Ok ndvi
  /\ _get_index_function (F := term) "Ndvi" = Ok ndvi
  /\ _get_index_function (F := term) "Cire" = Ok cire
  /\ _get_index_function (F := term) "EVI"
     = Raise (ValueError "Invalid indices mapping: EVI.")
  /\ _get_index_function (F := term) "NDVI2"
     = Raise (ValueError "Invalid indices mapping: NDVI2.").
Proof.
  destruct (get_index_function_lowered (F := term)) as (_ & _ & Hany & Hnone).
  split; [|split; [|split; [|split]]].
  - apply (Hany "NDVI"). reflexivity.
  - apply (Hany "Ndvi"). reflexivity.
  - apply (Hany "Cire"). reflexivity.
  - apply (Hnone "EVI"). apply mem_false. reflexivity.
  - apply (Hnone "NDVI2"). apply mem_false. reflexivity.
Defined.

(** ** Appending indices *)

(** Takes apart a hypothesis stating that a chain of binds returned. *)
Ltac returned H :=
  unfold mbind, result_bind, unpack_error in H;
  repeat match type of H with
  | match ?x with _ => _ end = Ok _ => destruct x; try discriminate H
  end;
  injection H as <-.

Section AddIndices.
Context {F : Type} `{Arith F}.

(** Every registered function returns exactly one band. *)
Lemma registered_single_band (key : string) (f : index_function (F := F)) raster d :
  indices_registry !! key = Some f ->
  f raster = Ok d ->
  exists index, d = expand_dims index.
Proof.
  intros Hf Hd. apply registry_lookup_Some in Hf.
  repeat (apply elem_of_cons in Hf as [->|Hf];
          [unfold bai, cig, cire, cm, cs1, cs2, dvi, dwi, fdi, gndvi, ndvi, ndwi,
             si, sr in Hd;
           returned Hd; eauto|]).
  by apply elem_of_nil in Hf.
Qed.

(** One turn of the loop either leaves the state alone or appends one name,
    one plane and one coordinate. *)
Lemma add_band_cases st band_id st' :
  add_band st band_id = Ok st' ->
  ((band_id ∈ input_bands st) /\ st' = st)
  \/ ((band_id ∉ input_bands st) /\
      exists f index,
        _get_index_function band_id = Ok f /\
        f (xraster st) = Ok (expand_dims index) /\
        st' = {| xraster_values := xraster_values st ++ [index];
                 xraster_band := xraster_band st ++ [Z.of_nat (n_bands st + 1)];
                 input_bands := input_bands st ++ [band_id];
                 n_bands := (n_bands st + 1)%nat |}).
Proof.
  unfold add_band. destruct (Py.mem band_id (input_bands st)) eqn:Hmem; simpl.
  - intros [= <-]. left. split; [by apply mem_true|done].
  - intros Hst. right. split; [by apply mem_false|].
    unfold _get_index_function in *.
    destruct (indices_registry !! Py.lower band_id) as [f|] eqn:Hf;
      [|discriminate Hst]. simpl in Hst.
    destruct (f (xraster st)) as [d|] eqn:Hd; [|discriminate Hst].
    destruct (registered_single_band _ _ _ _ Hf Hd) as [index ->].
    simpl in Hst. unfold concat in Hst. simpl in Hst.
    destruct (xraster_band st) as [|label labels] eqn:Hband; [discriminate Hst|].
    simpl in Hst. injection Hst as <-.
    exists f, index. done.
Qed.

(** A band is appended only to a raster that has a band coordinate. *)
Lemma add_band_coordinate st band_id st' :
  add_band st band_id = Ok st' ->
  band_id ∉ input_bands st ->
  xraster_band st <> [].
Proof.
  unfold add_band. intros Hst Hnew Hband. apply mem_false in Hnew.
  rewrite Hnew in Hst. simpl in Hst.
  destruct (_get_index_function band_id) as [f|]; [|discriminate Hst].
  simpl in Hst.
  destruct (f (xraster st)) as [d|]; [|discriminate Hst].
  simpl in Hst. unfold concat in Hst. simpl in Hst.
  rewrite Hband in Hst. discriminate Hst.
Qed.

Lemma add_band_consistent st band_id st' :
  consistent st -> add_band st band_id = Ok st' -> consistent st'.
Proof.
  unfold consistent. intros Hst Hadd.
  apply add_band_cases in Hadd as [[_ ->]|(_ & f & index & _ & _ & ->)]; [done|].
  simpl. rewrite !length_app. simpl. lia.
Qed.

Lemma add_bands_trace_consistent st output_bands :
  consistent st -> Forall consistent (add_bands_trace st output_bands).
Proof.
  revert st. induction output_bands as [|band_id rest IH]; intros st Hst; simpl.
  - constructor.
  - destruct (add_band st band_id) as [st'|] eqn:Hadd; [|constructor].
    assert (consistent st') by (eapply add_band_consistent; eauto).
    constructor; [done|]. by apply IH.
Qed.

(** The trace is the run: when the loop returns, it has one state per name
    of [output_bands] and the last of them is the state returned. *)
Lemma add_bands_trace_last st output_bands st' :
  add_bands st output_bands = Ok st' ->
  length (add_bands_trace st output_bands) = length output_bands /\
  last (st :: add_bands_trace st output_bands) = Some st'.
Proof.
  revert st. induction output_bands as [|band_id rest IH]; intros st; simpl.
  - intros [= <-]. done.
  - destruct (add_band st band_id) as [st1|]; simpl; [|done].
    intros Hrest. apply IH in Hrest as [Hlen Hlast]. split; [by rewrite Hlen|].
    rewrite last_cons. simpl in Hlast. rewrite last_cons in Hlast.
    destruct (last (add_bands_trace st1 rest)); done.
Qed.

Lemma add_bands_consistent st output_bands st' :
  consistent st -> add_bands st output_bands = Ok st' -> consistent st'.
Proof.
  revert st. induction output_bands as [|band_id rest IH]; intros st Hst; simpl.
  - by intros [= <-].
  - destruct (add_band st band_id) as [st1|] eqn:Hadd; simpl; [|done].
    apply IH. eapply add_band_consistent; eauto.
Qed.

End AddIndices.

(** C4: when [input_bands] has as many names as the raster has bands, the
    band-name list and the band axis have the same length in the state
    reached after each turn of the loop, and on the raster returned, which is
    the last of those states. *)
Theorem add_indices_consistent {F : Type} `{Arith F}
    (xr : DataArray F) (input_bands output_bands : list string) :
  length input_bands = length (values xr) ->
  Forall consistent
         (add_bands_trace (enter xr input_bands) (map Py.lower output_bands))
  /\ (forall r,
        add_indices xr input_bands output_bands = Ok r ->
        (exists names,
            attrs_band_names r = Some names /\ length names = length (values r))
        /\ length (add_bands_trace (enter xr input_bands) (map Py.lower output_bands))
           = length output_bands
        /\ xraster <$> last (enter xr input_bands
                             :: add_bands_trace (enter xr input_bands)
                                  (map Py.lower output_bands))
           = Some r).
Proof.
  intros Hlen.
  assert (consistent (enter xr input_bands)) as Henter.
  { unfold consistent, enter. simpl. by rewrite length_map. }
  split.
  - by apply add_bands_trace_consistent.
  - unfold add_indices. intros r Hr.
    destruct (add_bands _ _) as [st|] eqn:Hst; [|discriminate Hr].
    simpl in Hr. injection Hr as <-. split.
    + eexists. split; [reflexivity|].
      eapply add_bands_consistent; eauto.
    + apply add_bands_trace_last in Hst as [Hn Hlast].
      by rewrite Hn, Hlast, length_map.
Qed.

Lemma add_indices_consistent_witness :
  Forall consistent
         (add_bands_trace
            (enter (pixel_raster ["blue"; "green"; "red"; "nir1"])
                   ["blue"; "green"; "red"; "nir1"])
            (map Py.lower ["blue"; "green"; "red"; "nir1"; "ndvi"; "sr"]))
  /\ (forall r,
        add_indices (pixel_raster ["blue"; "green"; "red"; "nir1"])
                    ["blue"; "green"; "red"; "nir1"]
                    ["blue"; "green"; "red"; "nir1"; "ndvi"; "sr"] = Ok r ->
        exists names,
          attrs_band_names r = Some names /\ length names = length (values r)).
Proof.
  destruct (add_indices_consistent (pixel_raster ["blue"; "green"; "red"; "nir1"])
              ["blue"; "green"; "red"; "nir1"]
              ["blue"; "green"; "red"; "nir1"; "ndvi"; "sr"] eq_refl)
    as [Htrace Hreturned].
  split; [exact Htrace|]. intros r Hr. exact (proj1 (Hreturned r Hr)).
Defined.

(** C3, as stated, fails: a four-band raster whose band dimension has no
    coordinate cannot take the new band, which has one, and [add_indices]
    raises instead of returning five bands. *)
Lemma appends_ndvi_fails_without_coordinate :
  length (values {| values := [[[Px "blue"]]; [[Px "green"]]; [[Px "red"]];
                               [[Px "nir1"]]];
                    band := [];
                    attrs_band_names := Some ["blue"; "green"; "red"; "nir1"] |})
  = 4%nat
  /\ ~ appends_ndvi {| values := [[[Px "blue"]]; [[Px "green"]]; [[Px "red"]];
                                  [[Px "nir1"]]];
                       band := [];
                       attrs_band_names := Some ["blue"; "green"; "red"; "nir1"] |}
  /\ exists msg,
       add_indices {| values := [[[Px "blue"]]; [[Px "green"]]; [[Px "red"]];
                                 [[Px "nir1"]]];
                      band := [];
                      attrs_band_names := Some ["blue"; "green"; "red"; "nir1"] |}
         ["blue"; "green"; "red"; "nir1"] ["blue"; "green"; "red"; "nir1"; "ndvi"]
       = Raise (ValueError msg).
Proof.
  split; [reflexivity|]. split.
  - intros (index & r & _ & Hadd & _). vm_compute in Hadd. discriminate Hadd.
  - eexists. reflexivity.
Qed.

(** C3 (amended): on a four-band raster that has a coordinate on its band
    dimension, with the four band names as input and the same names followed
    by 'ndvi' as output, [add_indices] returns a raster of five bands whose
    band names are the input names followed by 'ndvi', whose fifth band is
    the band [ndvi] computes from the raster as it stands when the loop is
    entered, and whose fifth coordinate is 5. *)
Theorem add_indices_appends_ndvi {F : Type} `{Arith F} (xr : DataArray F) :
  length (values xr) = 4%nat ->
  band xr <> [] ->
  exists index r,
    ndvi {| values := values xr; band := band xr;
            attrs_band_names := Some ["blue"; "green"; "red"; "nir1"] |}
    = Ok (expand_dims index)
    /\ add_indices xr ["blue"; "green"; "red"; "nir1"]
                      ["blue"; "green"; "red"; "nir1"; "ndvi"] = Ok r
    /\ length (values r) = 5%nat
    /\ attrs_band_names r = Some (["blue"; "green"; "red"; "nir1"] ++ ["ndvi"])
    /\ values r = values xr ++ [index]
    /\ values r !! 4%nat = Some index
    /\ band r = band xr ++ [5%Z].
Proof.
  intros Hlen Hband. destruct xr as [vals coords attrs]. simpl in Hlen, Hband.
  destruct vals as [|blue [|green [|red [|nir1 [|? ?]]]]]; try discriminate Hlen.
  destruct coords as [|label labels]; [done|].
  exists (elementwise fdiv (elementwise fsub nir1 red) (elementwise fadd nir1 red)).
  eexists. split; [reflexivity|]. split; [reflexivity|].
  repeat split.
Qed.

Lemma add_indices_appends_ndvi_witness :
  exists index r,
    ndvi (pixel_raster ["blue"; "green"; "red"; "nir1"]) = Ok (expand_dims index)
    /\ add_indices (pixel_raster ["blue"; "green"; "red"; "nir1"])
                   ["blue"; "green"; "red"; "nir1"]
                   ["blue"; "green"; "red"; "nir1"; "ndvi"] = Ok r
    /\ length (values r) = 5%nat
    /\ attrs_band_names r = Some (["blue"; "green"; "red"; "nir1"] ++ ["ndvi"])
    /\ values r = values (pixel_raster ["blue"; "green"; "red"; "nir1"]) ++ [index]
    /\ values r !! 4%nat = Some index
    /\ band r = band (pixel_raster ["blue"; "green"; "red"; "nir1"]) ++ [5%Z].
Proof.
  apply (add_indices_appends_ndvi (pixel_raster ["blue"; "green"; "red"; "nir1"])).
  - reflexivity.
  - discriminate.
Defined.

(** ** Calling [add_indices] twice *)

Section Twice.
Context {F : Type} `{Arith F}.

(** The band names only grow, and every requested name ends up among them. *)
Lemma add_bands_names st output_bands st' :
  add_bands st output_bands = Ok st' ->
  (forall b, b ∈ input_bands st -> b ∈ input_bands st')
  /\ (forall b, b ∈ output_bands -> b ∈ input_bands st').
Proof.
  revert st. induction output_bands as [|band_id rest IH]; intros st; simpl.
  - intros [= <-]. split; [done|]. intros b Hb. by apply elem_of_nil in Hb.
  - destruct (add_band st band_id) as [st1|] eqn:Hadd; simpl; [|done].
    intros Hrest. apply IH in Hrest as [Hgrow Hcover].
    assert (forall b, b ∈ input_bands st -> b ∈ input_bands st1) as Hstep.
    { apply add_band_cases in Hadd as [[_ ->]|(_ & f & index & _ & _ & ->)];
        [done|]. simpl. intros b Hb. apply elem_of_app. by left. }
    assert (band_id ∈ input_bands st1) as Hid.
    { apply add_band_cases in Hadd as [[Hin ->]|(_ & f & index & _ & _ & ->)];
        [done|]. simpl. apply elem_of_app. right. apply list_elem_of_singleton.
      done. }
    split.
    + intros b Hb. by apply Hgrow, Hstep.
    + intros b Hb. apply elem_of_cons in Hb as [->|Hb]; [by apply Hgrow|].
      by apply Hcover.
Qed.

(** Lower-case requests keep the band names lower-case. *)
Lemma add_bands_lower st output_bands st' :
  Forall (fun n => Py.lower n = n) (input_bands st) ->
  Forall (fun n => Py.lower n = n) output_bands ->
  add_bands st output_bands = Ok st' ->
  Forall (fun n => Py.lower n = n) (input_bands st').
Proof.
  intros Hst Hout. revert st Hst.
  induction Hout as [|band_id rest Hid _ IH]; intros st Hst; simpl.
  - by intros [= <-].
  - destruct (add_band st band_id) as [st1|] eqn:Hadd; simpl; [|done].
    apply IH.
    apply add_band_cases in Hadd as [[_ ->]|(_ & f & index & _ & _ & ->)];
      [done|]. simpl. apply Forall_app. split; [done|]. by constructor.
Qed.

(** Nothing is appended for names that are already band names. *)
Lemma add_bands_present st output_bands :
  (forall b, b ∈ output_bands -> b ∈ input_bands st) ->
  add_bands st output_bands = Ok st.
Proof.
  induction output_bands as [|band_id rest IH]; intros Hin; simpl; [done|].
  unfold add_band.
  assert (Py.mem band_id (input_bands st) = true) as ->.
  { apply mem_true, Hin. left. }
  simpl. apply IH. intros b Hb. apply Hin. by right.
Qed.

Lemma lower_map_fixed (l : list string) :
  Forall (fun n => Py.lower n = n) l -> map Py.lower l = l.
Proof. induction 1 as [|n l Hn _ IH]; simpl; [done|]. by rewrite Hn, IH. Qed.

Lemma lower_map_lowered (l : list string) :
  Forall (fun n => Py.lower n = n) (map Py.lower l).
Proof. induction l; constructor; [apply lower_idemp|done]. Qed.

End Twice.

(** C2, as stated, fails: the second call resets the band names to
    [input_bands], finds 'ndvi' missing again and appends a sixth band. *)
Lemma second_call_same_inputs_fails :
  ~ second_call_same_inputs
      (pixel_raster ["blue"; "green"; "red"; "nir1"])
      ["blue"; "green"; "red"; "nir1"]
      ["blue"; "green"; "red"; "nir1"; "ndvi"].
Proof.
  intros Hspec. destruct (Hspec _ eq_refl) as (r2 & Hr2 & Hcount & _).
  vm_compute in Hr2. injection Hr2 as <-. discriminate Hcount.
Qed.

(** C2 (amended): a second call on the raster returned by the first, given
    that raster's band names as [input_bands] and the same [output_bands],
    appends nothing and returns that very raster. *)
Theorem add_indices_second_call {F : Type} `{Arith F}
    (xr r1 : DataArray F) (input_bands output_bands names1 : list string) :
  add_indices xr input_bands output_bands = Ok r1 ->
  attrs_band_names r1 = Some names1 ->
  add_indices r1 names1 output_bands = Ok r1.
Proof.
  rename input_bands into inputs.
  unfold add_indices. intros Hfirst Hnames.
  destruct (add_bands (enter xr inputs) (map Py.lower output_bands))
    as [st|] eqn:Hst; [|discriminate Hfirst].
  simpl in Hfirst. injection Hfirst as <-.
  simpl in Hnames. injection Hnames as <-.
  assert (Forall (fun n => Py.lower n = n) (input_bands st)) as Hlow.
  { eapply add_bands_lower; [| |exact Hst]; apply lower_map_lowered. }
  apply add_bands_names in Hst as [_ Hcover].
  unfold enter. rewrite (lower_map_fixed _ Hlow). simpl.
  rewrite add_bands_present; [done|]. exact Hcover.
Qed.

Lemma add_indices_second_call_witness :
  add_indices
    {| values := [[[Px "blue"]]; [[Px "green"]]; [[Px "red"]]; [[Px "nir1"]];
                  [[Over (Minus (Px "nir1") (Px "red")) (Plus (Px "nir1") (Px "red"))]]];
       band := [1; 2; 3; 4; 5]%Z;
       attrs_band_names := Some ["blue"; "green"; "red"; "nir1"; "ndvi"] |}
    ["blue"; "green"; "red"; "nir1"; "ndvi"]
    ["blue"; "green"; "red"; "nir1"; "ndvi"]
  = Ok {| values := [[[Px "blue"]]; [[Px "green"]]; [[Px "red"]]; [[Px "nir1"]];
                     [[Over (Minus (Px "nir1") (Px "red")) (Plus (Px "nir1") (Px "red"))]]];
          band := [1; 2; 3; 4; 5]%Z;
          attrs_band_names := Some ["blue"; "green"; "red"; "nir1"; "ndvi"] |}.
Proof.
  apply (add_indices_second_call (pixel_raster ["blue"; "green"; "red"; "nir1"]) _
           ["blue"; "green"; "red"; "nir1"]
           ["blue"; "green"; "red"; "nir1"; "ndvi"]);
    reflexivity.
Defined.

(** ** Resolving an optimizer *)

(** C9: when evaluating the string raises [NameError], [get_optimizer]
    neither returns nor raises an [Exception]: it leaves through
    [SystemExit], with a message made of the error and of the three accepted
    namespaces; when the evaluation returns an object, that object is the
    result. *)
Theorem get_optimizer_exits {object : Type} (eval : string -> result object)
    (tf sm tfa optimizer : string) :
  (forall err,
      eval optimizer = Raise (NameError err) ->
      exists msg,
        get_optimizer eval tf sm tfa optimizer = Raise (SystemExit msg) /\
        is_Exception (SystemExit msg) = false /\
        msg = (err ++ ". Accepted optimizers from " ++ tf ++ ", " ++ sm ++ ", "
                   ++ tfa)%string)
  /\ (forall value,
        eval optimizer = Ok value ->
        get_optimizer eval tf sm tfa optimizer = Ok value).
Proof.
  unfold get_optimizer. split.
  - intros err ->. eexists. repeat split.
  - by intros value ->.
Qed.

Lemma get_optimizer_exits_witness :
  (exists msg,
      get_optimizer toy_eval "<module 'tensorflow'>" "<module 'segmentation_models'>"
                    "<module 'tensorflow_addons'>" "keras.optimizers.Adam"
      = Raise (SystemExit msg) /\
      is_Exception (SystemExit msg) = false /\
      msg = ("name 'keras' is not defined"
             ++ ". Accepted optimizers from " ++ "<module 'tensorflow'>" ++ ", "
             ++ "<module 'segmentation_models'>" ++ ", "
             ++ "<module 'tensorflow_addons'>")%string)
  /\ get_optimizer toy_eval "<module 'tensorflow'>" "<module 'segmentation_models'>"
                   "<module 'tensorflow_addons'>" "tf.keras.optimizers.Adam"
     = Ok "<class 'keras.optimizers.Adam'>".
Proof.
  split.
  - apply (proj1 (get_optimizer_exits toy_eval _ _ _ "keras.optimizers.Adam")).
    reflexivity.
  - apply (proj2 (get_optimizer_exits toy_eval _ _ _ "tf.keras.optimizers.Adam")).
    reflexivity.
Defined.

(** * Further properties of the band-index module *)

(** ** Band locations: bounds, letter case, longer band lists *)

Lemma index_lt l x i : Py.index l x = Some i -> (i < length l)%nat.
Proof. intros Hi. apply index_Some in Hi as [Hi _]. by eapply lookup_lt_Some. Qed.

Lemma index_app_l l k x i :
  Py.index l x = Some i -> Py.index (l ++ k) x = Some i.
Proof.
  intros Hi. pose proof (index_lt _ _ _ Hi) as Hlt.
  apply index_Some in Hi as [Hi Hfirst]. apply index_Some. split.
  - by apply lookup_app_l_Some.
  - intros j Hj. rewrite lookup_app_l; [by apply Hfirst|lia].
Qed.

Lemma index_app_inv l k x i :
  x ∉ k -> Py.index (l ++ k) x = Some i -> Py.index l x = Some i.
Proof.
  intros Hk Hi. apply index_Some in Hi as [Hi Hfirst].
  apply lookup_app_Some in Hi as [Hi|[_ Hi]].
  - apply index_Some. split; [done|]. intros j Hj Hl.
    apply (Hfirst j Hj). by apply lookup_app_l_Some.
  - exfalso. apply Hk. eapply list_elem_of_lookup_2. exact Hi.
Qed.

Lemma band_locations_sound (bands requested : list string) (locs : list nat) :
  _get_band_locations bands requested = Ok locs ->
  Forall2 (locates bands) requested locs
  /\ Forall (fun i => (i < length bands)%nat) locs.
Proof.
  revert locs. induction requested as [|b rest IH]; intros locs; simpl.
  - intros [= <-]. split; constructor.
  - destruct (Py.index bands (Py.lower b)) as [i|] eqn:Hi; [|done].
    destruct (_get_band_locations bands rest) as [locs'|]; [|done].
    simpl. intros [= <-]. destruct (IH _ eq_refl) as [Hloc Hlt].
    split; constructor; try done.
    + by apply index_Some.
    + by eapply index_lt.
Qed.

(** What a successful call returns: one position per request, each the first
    position of the lower-cased request and each within the band list, so
    that reading the bands at these positions cannot run past a raster with
    as many bands as names. *)
Theorem get_band_locations_sound (bands requested : list string) (locs : list nat) :
  _get_band_locations bands requested = Ok locs ->
  length locs = length requested
  /\ Forall2 (locates bands) requested locs
  /\ Forall (fun i => (i < length bands)%nat) locs.
Proof.
  intros Hlocs. apply band_locations_sound in Hlocs as [Hloc Hlt].
  split; [|by split]. symmetry. by eapply Forall2_length.
Qed.

Lemma get_band_locations_sound_witness :
  length [3; 2; 3]%nat = length ["NIR1"; "red"; "nir1"]
  /\ Forall2 (locates ["blue"; "green"; "red"; "nir1"]) ["NIR1"; "red"; "nir1"] [3; 2; 3]%nat
  /\ Forall (fun i => (i < length ["blue"; "green"; "red"; "nir1"])%nat) [3; 2; 3]%nat.
Proof.
  apply (get_band_locations_sound ["blue"; "green"; "red"; "nir1"]
           ["NIR1"; "red"; "nir1"] [3; 2; 3]%nat).
  reflexivity.
Defined.

(** Two request lists that differ only in letter case succeed together, with
    the same positions. *)
Theorem get_band_locations_any_case (bands requested requested' : list string)
    (locs : list nat) :
  Forall2 (fun b b' => Py.lower b = Py.lower b') requested requested' ->
  _get_band_locations bands requested = Ok locs ->
  _get_band_locations bands requested' = Ok locs.
Proof.
  intros Hcase. revert locs.
  induction Hcase as [|b b' rest rest' Hb _ IH]; intros locs; simpl; [done|].
  rewrite <- Hb. destruct (Py.index bands (Py.lower b)); [|done].
  destruct (_get_band_locations bands rest) as [locs'|]; [|done].
  by rewrite (IH _ eq_refl).
Qed.

Lemma get_band_locations_any_case_witness :
  _get_band_locations ["blue"; "green"; "red"; "nir1"] ["Nir1"; "RED"] = Ok [3; 2]%nat.
Proof.
  apply (get_band_locations_any_case _ ["nir1"; "red"]).
  - repeat constructor.
  - reflexivity.
Defined.

Lemma band_locations_append (bands more requested : list string)
    (locs : list nat) :
  (_get_band_locations bands requested = Ok locs ->
   _get_band_locations (bands ++ more) requested = Ok locs)
  /\ (Forall (fun b => Py.lower b ∉ more) requested ->
      _get_band_locations (bands ++ more) requested = Ok locs ->
      _get_band_locations bands requested = Ok locs).
Proof.
  split.
  - revert locs. induction requested as [|b rest IH]; intros locs; simpl; [done|].
    destruct (Py.index bands (Py.lower b)) as [i|] eqn:Hi; [|done].
    rewrite (index_app_l _ more _ _ Hi).
    destruct (_get_band_locations bands rest) as [locs'|]; [|done].
    by rewrite (IH _ eq_refl).
  - intros Hreq. revert locs.
    induction Hreq as [|b rest Hb _ IH]; intros locs; simpl; [done|].
    destruct (Py.index (bands ++ more) (Py.lower b)) as [i|] eqn:Hi; [|done].
    rewrite (index_app_inv _ _ _ _ Hb Hi).
    destruct (_get_band_locations (bands ++ more) rest) as [locs'|]; [|done].
    by rewrite (IH _ eq_refl).
Qed.

(** Appending names to the band list moves no position: what was located
    stays where it was. Conversely, a request located in the longer list and
    not among the appended names was located, at the same place, before. *)
Theorem get_band_locations_append (bands more requested : list string)
    (locs : list nat) :
  (_get_band_locations bands requested = Ok locs ->
   _get_band_locations (bands ++ more) requested = Ok locs)
  /\ (Forall (fun b => Py.lower b ∉ more) requested ->
      _get_band_locations (bands ++ more) requested = Ok locs ->
      _get_band_locations bands requested = Ok locs).
Proof.
  destruct (band_locations_append bands more requested locs) as [Hkeep Hback].
  split; [exact Hkeep|]. intros Hfresh Hlong. by apply Hback.
Qed.

Lemma get_band_locations_append_witness :
  _get_band_locations (["blue"; "green"; "red"; "nir1"] ++ ["ndvi"; "red"])
    ["nir1"; "red"] = Ok [3; 2]%nat
  /\ _get_band_locations ["blue"; "green"; "red"; "nir1"] ["nir1"; "red"]
     = Ok [3; 2]%nat.
Proof.
  split.
  - apply (proj1 (get_band_locations_append ["blue"; "green"; "red"; "nir1"]
                    ["ndvi"; "red"] ["nir1"; "red"] [3; 2]%nat)).
    reflexivity.
  - apply (proj2 (get_band_locations_append ["blue"; "green"; "red"; "nir1"]
                    ["ndvi"; "sr"] ["nir1"; "red"] [3; 2]%nat)).
    + repeat constructor; apply mem_false; reflexivity.
    + reflexivity.
Defined.

(** ** The formula of each index, sample by sample *)

(** Reads a plane built from [elementwise], [scalar_l] and [scalar_r] at one
    pixel. *)
Ltac per_sample :=
  let y := fresh "y" in
  let x := fresh "x" in
  intros y x;
  repeat first [ rewrite sample_scalar_l
               | rewrite sample_scalar_r
               | rewrite sample_elementwise ];
  repeat match goal with
  | |- context [sample ?p y x] => is_var p; destruct (sample p y x); simpl
  end;
  done.

(** Burn area index: [1 / ((0.1 - red) ** 2 + (0.06 - nir1) ** 2)]. *)
Theorem bai_formula {F : Type} `{Arith F} (raster : DataArray F) (R N : plane F) :
  band_named raster "red" = Some R ->
  band_named raster "nir1" = Some N ->
  exists index,
    bai raster = Ok (expand_dims index) /\
    forall y x,
      sample index y x
      = r ← sample R y x; n ← sample N y x;
        Some (fdiv (const 1)
                (fadd (fpow (fsub (const (1 # 10)) r) (const 2))
                      (fpow (fsub (const (6 # 100)) n) (const 2)))).
Proof.
  intros HR HN. resolve_bands. eexists. split.
  - unfold bai. run_index. reflexivity.
  - per_sample.
Qed.

Lemma bai_formula_witness :
  exists index,
    bai (pixel_raster ["blue"; "green"; "red"; "nir1"]) = Ok (expand_dims index) /\
    sample index 0 0
    = Some (Over (Num 1)
              (Plus (Power (Minus (Num (1 # 10)) (Px "red")) (Num 2))
                    (Power (Minus (Num (6 # 100)) (Px "nir1")) (Num 2)))).
Proof.
  destruct (bai_formula (pixel_raster ["blue"; "green"; "red"; "nir1"])
              [[Px "red"]] [[Px "nir1"]] eq_refl eq_refl) as (index & Hrun & Hsample).
  exists index. split; [exact Hrun|]. rewrite Hsample. reflexivity.
Defined.

(** Green chlorophyll index: [nir1 / green - 1]. *)
Theorem cig_formula {F : Type} `{Arith F} (raster : DataArray F) (N G : plane F) :
  band_named raster "nir1" = Some N ->
  band_named raster "green" = Some G ->
  exists index,
    cig raster = Ok (expand_dims index) /\
    forall y x,
      sample index y x
      = n ← sample N y x; g ← sample G y x; Some (fsub (fdiv n g) (const 1)).
Proof.
  intros HN HG. resolve_bands. eexists. split.
  - unfold cig. run_index. reflexivity.
  - per_sample.
Qed.

Lemma cig_formula_witness :
  exists index,
    cig (pixel_raster ["blue"; "green"; "red"; "nir1"]) = Ok (expand_dims index) /\
    sample index 0 0 = Some (Minus (Over (Px "nir1") (Px "green")) (Num 1)).
Proof.
  destruct (cig_formula (pixel_raster ["blue"; "green"; "red"; "nir1"])
              [[Px "nir1"]] [[Px "green"]] eq_refl eq_refl) as (index & Hrun & Hsample).
  exists index. split; [exact Hrun|]. rewrite Hsample. reflexivity.
Defined.

(** Clay minerals: [swir1 / swir2]. *)
Theorem cm_formula {F : Type} `{Arith F} (raster : DataArray F) (S1 S2 : plane F) :
  band_named raster "swir1" = Some S1 ->
  band_named raster "swir2" = Some S2 ->
  exists index,
    cm raster = Ok (expand_dims index) /\
    forall y x,
      sample index y x = a ← sample S1 y x; b ← sample S2 y x; Some (fdiv a b).
Proof.
  intros H1 H2. resolve_bands. eexists. split.
  - unfold cm. run_index. reflexivity.
  - per_sample.
Qed.

Lemma cm_formula_witness :
  exists index,
    cm (pixel_raster ["swir1"; "swir2"]) = Ok (expand_dims index) /\
    sample index 0 0 = Some (Over (Px "swir1") (Px "swir2")).
Proof.
  destruct (cm_formula (pixel_raster ["swir1"; "swir2"])
              [[Px "swir1"]] [[Px "swir2"]] eq_refl eq_refl) as (index & Hrun & Hsample).
  exists index. split; [exact Hrun|]. rewrite Hsample. reflexivity.
Defined.

(** First cloud index: [3 * nir1 / (blue + green + red)], the sum taken from
    the left. *)
Theorem cs1_formula {F : Type} `{Arith F} (raster : DataArray F) (N R B G : plane F) :
  band_named raster "nir1" = Some N ->
  band_named raster "red" = Some R ->
  band_named raster "blue" = Some B ->
  band_named raster "green" = Some G ->
  exists index,
    cs1 raster = Ok (expand_dims index) /\
    forall y x,
      sample index y x
      = n ← sample N y x; b ← sample B y x; g ← sample G y x; r ← sample R y x;
        Some (fdiv (fmul (const 3) n) (fadd (fadd b g) r)).
Proof.
  intros HN HR HB HG. resolve_bands. eexists. split.
  - unfold cs1. run_index. reflexivity.
  - per_sample.
Qed.

Lemma cs1_formula_witness :
  exists index,
    cs1 (pixel_raster ["blue"; "green"; "red"; "nir1"]) = Ok (expand_dims index) /\
    sample index 0 0
    = Some (Over (Times (Num 3) (Px "nir1"))
                 (Plus (Plus (Px "blue") (Px "green")) (Px "red"))).
Proof.
  destruct (cs1_formula (pixel_raster ["blue"; "green"; "red"; "nir1"])
              [[Px "nir1"]] [[Px "red"]] [[Px "blue"]] [[Px "green"]]
              eq_refl eq_refl eq_refl eq_refl) as (index & Hrun & Hsample).
  exists index. split; [exact Hrun|]. rewrite Hsample. reflexivity.
Defined.

(** Second cloud index: [(blue + green + red + nir1) / 4]. *)
Theorem cs2_formula {F : Type} `{Arith F} (raster : DataArray F) (N R B G : plane F) :
  band_named raster "nir1" = Some N ->
  band_named raster "red" = Some R ->
  band_named raster "blue" = Some B ->
  band_named raster "green" = Some G ->
  exists index,
    cs2 raster = Ok (expand_dims index) /\
    forall y x,
      sample index y x
      = b ← sample B y x; g ← sample G y x; r ← sample R y x; n ← sample N y x;
        Some (fdiv (fadd (fadd (fadd b g) r) n) (const 4)).
Proof.
  intros HN HR HB HG. resolve_bands. eexists. split.
  - unfold cs2. run_index. reflexivity.
  - per_sample.
Qed.

Lemma cs2_formula_witness :
  exists index,
    cs2 (pixel_raster ["blue"; "green"; "red"; "nir1"]) = Ok (expand_dims index) /\
    sample index 0 0
    = Some (Over (Plus (Plus (Plus (Px "blue") (Px "green")) (Px "red")) (Px "nir1"))
                 (Num 4)).
Proof.
  destruct (cs2_formula (pixel_raster ["blue"; "green"; "red"; "nir1"])
              [[Px "nir1"]] [[Px "red"]] [[Px "blue"]] [[Px "green"]]
              eq_refl eq_refl eq_refl eq_refl) as (index & Hrun & Hsample).
  exists index. split; [exact Hrun|]. rewrite Hsample. reflexivity.
Defined.

(** Difference vegetation index: [nir1 - red]. *)
Theorem dvi_formula {F : Type} `{Arith F} (raster : DataArray F) (N R : plane F) :
  band_named raster "nir1" = Some N ->
  band_named raster "red" = Some R ->
  exists index,
    dvi raster = Ok (expand_dims index) /\
    forall y x,
      sample index y x
      = n ← sample N y x; r ← sample R y x; Some (fsub n r).
Proof.
  intros HN HR. resolve_bands. eexists. split.
  - unfold dvi. run_index. reflexivity.
  - per_sample.
Qed.

Lemma dvi_formula_witness :
  exists index,
    dvi (pixel_raster ["blue"; "green"; "red"; "nir1"]) = Ok (expand_dims index) /\
    sample index 0 0 = Some (Minus (Px "nir1") (Px "red")).
Proof.
  destruct (dvi_formula (pixel_raster ["blue"; "green"; "red"; "nir1"])
              [[Px "nir1"]] [[Px "red"]] eq_refl eq_refl) as (index & Hrun & Hsample).
  exists index. split; [exact Hrun|]. rewrite Hsample. reflexivity.
Defined.

(** Difference water index: [green - nir1]. *)
Theorem dwi_formula {F : Type} `{Arith F} (raster : DataArray F) (N G : plane F) :
  band_named raster "nir1" = Some N ->
  band_named raster "green" = Some G ->
  exists index,
    dwi raster = Ok (expand_dims index) /\
    forall y x,
      sample index y x
      = n ← sample N y x; g ← sample G y x; Some (fsub g n).
Proof.
  intros HN HG. resolve_bands. eexists. split.
  - unfold dwi. run_index. reflexivity.
  - per_sample.
Qed.

Lemma dwi_formula_witness :
  exists index,
    dwi (pixel_raster ["blue"; "green"; "red"; "nir1"]) = Ok (expand_dims index) /\
    sample index 0 0 = Some (Minus (Px "green") (Px "nir1")).
Proof.
  destruct (dwi_formula (pixel_raster ["blue"; "green"; "red"; "nir1"])
              [[Px "nir1"]] [[Px "green"]] eq_refl eq_refl) as (index & Hrun & Hsample).
  exists index. split; [exact Hrun|]. rewrite Hsample. reflexivity.
Defined.

(** Green normalised difference: [(nir1 - green) / (nir1 + green)]. *)
Theorem gndvi_formula {F : Type} `{Arith F} (raster : DataArray F) (N G : plane F) :
  band_named raster "nir1" = Some N ->
  band_named raster "green" = Some G ->
  exists index,
    gndvi raster = Ok (expand_dims index) /\
    forall y x,
      sample index y x
      = n ← sample N y x; g ← sample G y x; Some (fdiv (fsub n g) (fadd n g)).
Proof.
  intros HN HG. resolve_bands. eexists. split.
  - unfold gndvi. run_index. reflexivity.
  - per_sample.
Qed.

Lemma gndvi_formula_witness :
  exists index,
    gndvi (pixel_raster ["blue"; "green"; "red"; "nir1"]) = Ok (expand_dims index) /\
    sample index 0 0 = Some (Over (Minus (Px "nir1") (Px "green")) (Plus (Px "nir1") (Px "green"))).
Proof.
  destruct (gndvi_formula (pixel_raster ["blue"; "green"; "red"; "nir1"])
              [[Px "nir1"]] [[Px "green"]] eq_refl eq_refl) as (index & Hrun & Hsample).
  exists index. split; [exact Hrun|]. rewrite Hsample. reflexivity.
Defined.

(** Normalised difference vegetation index: [(nir1 - red) / (nir1 + red)]. *)
Theorem ndvi_formula {F : Type} `{Arith F} (raster : DataArray F) (N R : plane F) :
  band_named raster "nir1" = Some N ->
  band_named raster "red" = Some R ->
  exists index,
    ndvi raster = Ok (expand_dims index) /\
    forall y x,
      sample index y x
      = n ← sample N y x; r ← sample R y x; Some (fdiv (fsub n r) (fadd n r)).
Proof.
  intros HN HR. resolve_bands. eexists. split.
  - unfold ndvi. run_index. reflexivity.
  - per_sample.
Qed.

Lemma ndvi_formula_witness :
  exists index,
    ndvi (pixel_raster ["blue"; "green"; "red"; "nir1"]) = Ok (expand_dims index) /\
    sample index 0 0 = Some (Over (Minus (Px "nir1") (Px "red")) (Plus (Px "nir1") (Px "red"))).
Proof.
  destruct (ndvi_formula (pixel_raster ["blue"; "green"; "red"; "nir1"])
              [[Px "nir1"]] [[Px "red"]] eq_refl eq_refl) as (index & Hrun & Hsample).
  exists index. split; [exact Hrun|]. rewrite Hsample. reflexivity.
Defined.

(** Normalised difference water index: [(green - nir1) / (green + nir1)]; the
    factor of the docstring is not applied. *)
Theorem ndwi_formula {F : Type} `{Arith F} (raster : DataArray F) (N G : plane F) :
  band_named raster "nir1" = Some N ->
  band_named raster "green" = Some G ->
  exists index,
    ndwi raster = Ok (expand_dims index) /\
    forall y x,
      sample index y x
      = n ← sample N y x; g ← sample G y x; Some (fdiv (fsub g n) (fadd g n)).
Proof.
  intros HN HG. resolve_bands. eexists. split.
  - unfold ndwi. run_index. reflexivity.
  - per_sample.
Qed.

Lemma ndwi_formula_witness :
  exists index,
    ndwi (pixel_raster ["blue"; "green"; "red"; "nir1"]) = Ok (expand_dims index) /\
    sample index 0 0 = Some (Over (Minus (Px "green") (Px "nir1")) (Plus (Px "green") (Px "nir1"))).
Proof.
  destruct (ndwi_formula (pixel_raster ["blue"; "green"; "red"; "nir1"])
              [[Px "nir1"]] [[Px "green"]] eq_refl eq_refl) as (index & Hrun & Hsample).
  exists index. split; [exact Hrun|]. rewrite Hsample. reflexivity.
Defined.

(** Simple ratio: [nir1 / red]. *)
Theorem sr_formula {F : Type} `{Arith F} (raster : DataArray F) (N R : plane F) :
  band_named raster "nir1" = Some N ->
  band_named raster "red" = Some R ->
  exists index,
    sr raster = Ok (expand_dims index) /\
    forall y x,
      sample index y x
      = n ← sample N y x; r ← sample R y x; Some (fdiv n r).
Proof.
  intros HN HR. resolve_bands. eexists. split.
  - unfold sr. run_index. reflexivity.
  - per_sample.
Qed.

Lemma sr_formula_witness :
  exists index,
    sr (pixel_raster ["blue"; "green"; "red"; "nir1"]) = Ok (expand_dims index) /\
    sample index 0 0 = Some (Over (Px "nir1") (Px "red")).
Proof.
  destruct (sr_formula (pixel_raster ["blue"; "green"; "red"; "nir1"])
              [[Px "nir1"]] [[Px "red"]] eq_refl eq_refl) as (index & Hrun & Hsample).
  exists index. split; [exact Hrun|]. rewrite Hsample. reflexivity.
Defined.

(** Enhanced vegetation index:
    [2.5 * (nir1 - red) / (nir1 + 6 * red - 7.5 * blue + 1)], the denominator
    taken from the left. *)
Theorem evi_formula {F : Type} `{Arith F} (raster : DataArray F) (R B N : plane F) :
  band_named raster "red" = Some R ->
  band_named raster "blue" = Some B ->
  band_named raster "nir1" = Some N ->
  exists index,
    evi raster = Ok (expand_dims index) /\
    forall y x,
      sample index y x
      = n ← sample N y x; r ← sample R y x; b ← sample B y x;
        Some (fdiv (fmul (const (25 # 10)) (fsub n r))
                (fadd (fsub (fadd n (fmul (const 6) r)) (fmul (const (75 # 10)) b))
                      (const 1))).
Proof.
  intros HR HB HN. resolve_bands. eexists. split.
  - unfold evi. run_index. reflexivity.
  - per_sample.
Qed.

Lemma evi_formula_witness :
  exists index,
    evi (pixel_raster ["blue"; "green"; "red"; "nir1"]) = Ok (expand_dims index) /\
    sample index 0 0
    = Some (Over (Times (Num (25 # 10)) (Minus (Px "nir1") (Px "red")))
                 (Plus (Minus (Plus (Px "nir1") (Times (Num 6) (Px "red")))
                              (Times (Num (75 # 10)) (Px "blue")))
                       (Num 1))).
Proof.
  destruct (evi_formula (pixel_raster ["blue"; "green"; "red"; "nir1"])
              [[Px "red"]] [[Px "blue"]] [[Px "nir1"]] eq_refl eq_refl eq_refl)
    as (index & Hrun & Hsample).
  exists index. split; [exact Hrun|]. rewrite Hsample. reflexivity.
Defined.

(** Red-edge chlorophyll index: [nir1 / e - 1], where [e] is the band named
    'rededge' when the canonical list is the one resolved and the band named
    'red' when the fallback list is; in the second case the result is the
    simple ratio minus one. *)
Theorem cire_formula {F : Type} `{Arith F} (raster : DataArray F) (names : list string) :
  attrs_band_names raster = Some names ->
  (forall N E,
      cire_bands names = ["nir1"; "rededge"] ->
      band_named raster "nir1" = Some N ->
      band_named raster "rededge" = Some E ->
      exists index,
        cire raster = Ok (expand_dims index) /\
        forall y x,
          sample index y x
          = n ← sample N y x; e ← sample E y x; Some (fsub (fdiv n e) (const 1)))
  /\ (forall N R,
        cire_bands names = ["nir1"; "red"] ->
        band_named raster "nir1" = Some N ->
        band_named raster "red" = Some R ->
        exists index,
          cire raster = Ok (expand_dims index) /\
          forall y x,
            sample index y x
            = n ← sample N y x; r ← sample R y x; Some (fsub (fdiv n r) (const 1)))
  /\ (forall ratio,
        cire_bands names = ["nir1"; "red"] ->
        sr raster = Ok (expand_dims ratio) ->
        cire raster = Ok (expand_dims (scalar_r fsub ratio (const 1)))).
Proof.
  intros Hnames. split; [|split].
  - intros N E Hsel HN HE. resolve_bands. eexists. split.
    + unfold cire, band_names. rewrite Hnames. simpl. rewrite Hsel.
      run_index. reflexivity.
    + per_sample.
  - intros N R Hsel HN HR. resolve_bands. eexists. split.
    + unfold cire, band_names. rewrite Hnames. simpl. rewrite Hsel.
      run_index. reflexivity.
    + per_sample.
  - intros ratio Hsel Hsr.
    unfold sr, band_names in Hsr. unfold cire, band_names.
    rewrite Hnames in *. unfold mbind, result_bind in *. cbv beta iota in *.
    rewrite Hsel.
    destruct (_get_band_locations names ["nir1"; "red"]) as [locs|];
      [|discriminate Hsr].
    destruct locs as [|nir1 [|red [|? ?]]]; try discriminate Hsr.
    destruct (isel raster nir1) as [n|]; [|discriminate Hsr].
    destruct (isel raster red) as [r|]; [|discriminate Hsr].
    by injection Hsr as <-.
Qed.

Lemma cire_formula_witness :
  (exists index,
      cire (pixel_raster ["nir1"; "rededge"]) = Ok (expand_dims index) /\
      forall y x,
        sample index y x
        = n ← sample [[Px "nir1"]] y x; e ← sample [[Px "rededge"]] y x;
          Some (Minus (Over n e) (Num 1)))
  /\ (exists index,
        cire (pixel_raster ["blue"; "green"; "red"; "nir1"]) = Ok (expand_dims index) /\
        forall y x,
          sample index y x
          = n ← sample [[Px "nir1"]] y x; r ← sample [[Px "red"]] y x;
            Some (Minus (Over n r) (Num 1)))
  /\ cire (pixel_raster ["blue"; "green"; "red"; "nir1"])
     = Ok (expand_dims (scalar_r fsub [[Over (Px "nir1") (Px "red")]] (const 1))).
Proof.
  split; [|split].
  - exact (proj1 (cire_formula (pixel_raster ["nir1"; "rededge"])
                    ["nir1"; "rededge"] eq_refl)
             [[Px "nir1"]] [[Px "rededge"]] eq_refl eq_refl eq_refl).
  - exact (proj1 (proj2 (cire_formula (pixel_raster ["blue"; "green"; "red"; "nir1"])
                           ["blue"; "green"; "red"; "nir1"] eq_refl))
             [[Px "nir1"]] [[Px "red"]] eq_refl eq_refl eq_refl).
  - exact (proj2 (proj2 (cire_formula (pixel_raster ["blue"; "green"; "red"; "nir1"])
                           ["blue"; "green"; "red"; "nir1"] eq_refl))
             [[Over (Px "nir1") (Px "red")]] eq_refl eq_refl).
Defined.

(** ** What an index function can do *)

Section Outcomes.
Context {F : Type} `{Arith F}.

Lemma get_band_locations_raise bands requested e :
  _get_band_locations bands requested = Raise e ->
  exists b, (b ∈ requested) /\ (Py.lower b ∉ bands) /\
            e = ValueError (not_in_raster_bands b bands).
Proof.
  induction requested as [|b rest IH]; simpl; [done|].
  destruct (Py.index bands (Py.lower b)) as [i|] eqn:Hi.
  - destruct (_get_band_locations bands rest) as [locs|e']; [done|].
    simpl. intros [= <-]. destruct (IH eq_refl) as (b' & Hb' & Hmiss & ->).
    exists b'. split; [by right|done].
  - intros [= <-]. exists b. split; [left|]. split; [by apply index_None|done].
Qed.

Lemma isel_Ok (raster : DataArray F) i :
  (i < length (values raster))%nat -> exists p, isel raster i = Ok p.
Proof.
  intros Hi. unfold isel.
  destruct (lookup_lt_is_Some_2 (values raster) i Hi) as [p ->]. by exists p.
Qed.

End Outcomes.

(** Settles what an index function does on a raster whose band names are
    [names], no more numerous than its bands. *)
Ltac outcome raster names Hnames Hlen :=
  unfold band_names; rewrite Hnames; unfold mbind, result_bind; cbv beta iota;
  unfold cire_bands, fdi_bands; cbv zeta; try destruct (negb _);
  let locs := fresh "locs" in
  let Hlocs := fresh "Hlocs" in
  destruct (_get_band_locations names _) as [locs|?] eqn:Hlocs;
  [ let HF2 := fresh "HF2" in
    let Hlt := fresh "Hlt" in
    apply band_locations_sound in Hlocs as [HF2 Hlt];
    apply Forall2_length in HF2; simpl in HF2;
    do 5 (try (destruct locs as [|? locs]; try discriminate HF2));
    repeat match goal with
    | H : Forall _ (?i :: _) |- _ =>
        let Hi := fresh "Hi" in
        apply Forall_cons in H as [Hi H];
        destruct (isel_Ok raster i) as [? ->]; [lia|]
    end;
    left; eexists; reflexivity
  | let b := fresh "b" in
    apply get_band_locations_raise in Hlocs as (b & _ & ? & ->);
    right; exists b; split; [assumption|reflexivity] ].

(** An index function called on a raster without band-name metadata raises
    [KeyError]. On a raster with at least as many bands as band names it
    either returns exactly one band or raises the not-found error for a band
    whose lower-cased name is not in the metadata; it never raises
    [IndexError]. *)
Theorem index_function_outcomes {F : Type} `{Arith F}
    (f : index_function (F := F)) (raster : DataArray F) :
  f ∈ index_functions ->
  (attrs_band_names raster = None -> f raster = Raise (KeyError "band_names"))
  /\ (forall names,
        attrs_band_names raster = Some names ->
        (length names <= length (values raster))%nat ->
        (exists index, f raster = Ok (expand_dims index))
        \/ (exists b, (Py.lower b ∉ names) /\
                      f raster = Raise (ValueError (not_in_raster_bands b names)))).
Proof.
  intros Hf. split.
  - intros Hnone. unfold index_functions in Hf.
    repeat (apply elem_of_cons in Hf as [->|Hf];
            [unfold bai, cig, cire, cm, cs1, cs2, dvi, dwi, evi, fdi, gndvi, ndvi,
               ndwi, si, sr, band_names; by rewrite Hnone|]).
    by apply elem_of_nil in Hf.
  - intros names Hnames Hlen. unfold index_functions in Hf.
    repeat (apply elem_of_cons in Hf as [->|Hf];
            [unfold bai, cig, cire, cm, cs1, cs2, dvi, dwi, evi, fdi, gndvi, ndvi,
               ndwi, si, sr;
             outcome raster names Hnames Hlen|]).
    by apply elem_of_nil in Hf.
Qed.

Lemma index_function_outcomes_witness :
  ndvi {| values := [[[Px "r"]]; [[Px "n"]]]; band := [1; 2]%Z;
          attrs_band_names := None |}
  = Raise (KeyError "band_names")
  /\ ((exists index,
          ndvi (pixel_raster ["blue"; "green"; "red"; "nir1"]) = Ok (expand_dims index))
      \/ (exists b, (Py.lower b ∉ ["blue"; "green"; "red"; "nir1"]) /\
                    ndvi (pixel_raster ["blue"; "green"; "red"; "nir1"])
                    = Raise (ValueError
                               (not_in_raster_bands b
                                  ["blue"; "green"; "red"; "nir1"])))).
Proof.
  assert (ndvi (F := term) ∈ index_functions) as Hin
    by (repeat first [apply list_elem_of_here | apply list_elem_of_further]).
  split.
  - apply (proj1 (index_function_outcomes ndvi _ Hin)). reflexivity.
  - apply (proj2 (index_function_outcomes ndvi
                    (pixel_raster ["blue"; "green"; "red"; "nir1"]) Hin)
             ["blue"; "green"; "red"; "nir1"] eq_refl).
    simpl. lia.
Defined.

(** ** What the dispatch can return *)

(** Rasters without bands on which [evi] and another index function part
    ways: one of the two misses a band name, the other one finds all its
    names and fails on the first band it reads. *)
Ltac differs_from_evi names :=
  let Heq := fresh "Heq" in
  intros Heq;
  apply (f_equal (fun g => g {| values := []; band := [];
                                attrs_band_names := Some names |})) in Heq;
  vm_compute in Heq; discriminate Heq.

(** The dispatch returns one of the fourteen registered functions, the same
    one for every spelling of a name, and never [evi]: no name reaches the
    enhanced vegetation index. *)
Theorem dispatch_never_evi {F : Type} `{Arith F}
    (index_key : string) (f : index_function (F := F)) :
  _get_index_function index_key = Ok f ->
  (Py.lower index_key ∈ registered)
  /\ f <> evi
  /\ forall index_key',
       Py.lower index_key' = Py.lower index_key ->
       _get_index_function index_key' = Ok f.
Proof.
  unfold _get_index_function. intros Hf.
  destruct (indices_registry !! Py.lower index_key) as [g|] eqn:Hg;
    [|discriminate Hf]. injection Hf as ->.
  split; [|split].
  - destruct (decide (Py.lower index_key ∈ registered)) as [Hin|Hout]; [done|].
    by rewrite (registry_lookup_None _ Hout) in Hg.
  - apply registry_lookup_Some in Hg.
    repeat (apply elem_of_cons in Hg as [->|Hg];
            [first [ differs_from_evi ["red"; "nir1"; "green"; "swir1"; "swir2"; "rededge"]
                   | differs_from_evi ["red"; "blue"; "nir1"]
                   | differs_from_evi ["blue"; "nir2"; "rededge"] ]|]).
    by apply elem_of_nil in Hg.
  - intros index_key' ->. by rewrite Hg.
Qed.

Lemma dispatch_never_evi_witness :
  (Py.lower "NDVI" ∈ registered)
  /\ ndvi (F := term) <> evi
  /\ forall index_key',
       Py.lower index_key' = Py.lower "NDVI" ->
       _get_index_function (F := term) index_key' = Ok ndvi.
Proof.
  apply (dispatch_never_evi (F := term) "NDVI" ndvi). reflexivity.
Defined.

(** ** What [add_indices] appends *)

Section Appended.
Context {F : Type} `{Arith F}.

(** The loop, seen from its two ends: names, planes and coordinates are
    appended in step, the counter numbers the coordinates, and the appended
    names are distinct registered names taken in order from [output_bands],
    none of them a band name at the start. *)
Lemma add_bands_growth (st : frame (F := F)) output_bands st' :
  Forall (fun b => Py.lower b = b) output_bands ->
  add_bands st output_bands = Ok st' ->
  exists appended planes,
    input_bands st' = input_bands st ++ appended /\
    xraster_values st' = xraster_values st ++ planes /\
    length planes = length appended /\
    xraster_band st'
    = xraster_band st ++ map Z.of_nat (seq (S (n_bands st)) (length appended)) /\
    n_bands st' = (n_bands st + length appended)%nat /\
    sublist appended output_bands /\
    Forall (fun b => b ∉ input_bands st) appended /\
    NoDup appended /\
    Forall (fun b => b ∈ registered) appended.
Proof.
  intros Hlow. revert st.
  induction Hlow as [|band_id rest Hid _ IH]; intros st; simpl.
  - intros [= <-]. exists [], []. rewrite !app_nil_r. simpl.
    repeat split; try done; try constructor.
  - destruct (add_band st band_id) as [st1|] eqn:Hadd; simpl; [|done].
    intros Hrest.
    destruct (IH _ Hrest)
      as (appended & planes & Hn & Hv & Hlen & Hb & Hc & Hsub & Hfresh & Hnd & Hreg).
    apply add_band_cases in Hadd
      as [[_ ->]|(Hnew & f & index & Hf & _ & ->)].
    + exists appended, planes. repeat split; try done. by apply sublist_cons.
    + simpl in *. exists (band_id :: appended), (index :: planes).
      rewrite Hn, Hv, Hb, Hc, <- !(assoc_L (++)). simpl.
      assert ((band_id ∉ appended) /\ Forall (fun b => b ∉ input_bands st) appended)
        as [Hnotin Hfresh'].
      { split.
        - intros Hin. rewrite Forall_forall in Hfresh. apply (Hfresh _ Hin).
          apply elem_of_app. right. by apply list_elem_of_singleton.
        - eapply Forall_impl; [exact Hfresh|]. simpl. intros b Hb' Hin.
          apply Hb'. apply elem_of_app. by left. }
      repeat split; try done.
      * by rewrite Hlen.
      * by replace (n_bands st + 1)%nat with (S (n_bands st)) by lia.
      * lia.
      * by apply sublist_skip.
      * by constructor.
      * by constructor.
      * constructor; [|done].
        unfold _get_index_function in Hf. rewrite Hid in Hf.
        destruct (decide (band_id ∈ registered)) as [Hin|Hout]; [done|].
        by rewrite (registry_lookup_None _ Hout) in Hf.
Qed.

End Appended.

(** When the lower-cased form of every output name is among the lower-cased
    input names, [add_indices] calls no index function and cannot fail: it
    returns the bands and coordinates it was given, with the lower-cased
    input names as metadata, whatever metadata the raster carried. *)
Theorem add_indices_nothing_missing {F : Type} `{Arith F}
    (xr : DataArray F) (input_bands output_bands : list string) :
  Forall (fun b => Py.lower b ∈ map Py.lower input_bands) output_bands ->
  add_indices xr input_bands output_bands
  = Ok {| values := values xr; band := band xr;
          attrs_band_names := Some (map Py.lower input_bands) |}.
Proof.
  intros Hin. unfold add_indices. rewrite add_bands_present; [done|].
  intros b Hb. apply list_elem_of_fmap in Hb as (b' & -> & Hb').
  rewrite Forall_forall in Hin. by apply Hin.
Qed.

Lemma add_indices_nothing_missing_witness :
  add_indices
    {| values := [[[Px "b"]]; [[Px "g"]]]; band := [1; 2]%Z;
       attrs_band_names := Some ["B01"; "B02"] |}
    ["Blue"; "Green"] ["GREEN"; "blue"; "green"]
  = Ok {| values := [[[Px "b"]]; [[Px "g"]]]; band := [1; 2]%Z;
          attrs_band_names := Some ["blue"; "green"] |}.
Proof.
  apply (add_indices_nothing_missing
           {| values := [[[Px "b"]]; [[Px "g"]]]; band := [1; 2]%Z;
              attrs_band_names := Some ["B01"; "B02"] |}
           ["Blue"; "Green"] ["GREEN"; "blue"; "green"]).
  repeat constructor; apply mem_true; reflexivity.
Defined.

(** The band names of the result are the lower-cased input names followed by
    the appended names. The appended names are lower-case, distinct,
    registered index names, none of them an input name; they come in the
    order of [output_bands]; and every output name, lower-cased, is a band
    name of the result. *)
Theorem add_indices_names {F : Type} `{Arith F}
    (xr r : DataArray F) (input_bands output_bands : list string) :
  add_indices xr input_bands output_bands = Ok r ->
  exists appended,
    attrs_band_names r = Some (map Py.lower input_bands ++ appended) /\
    NoDup appended /\
    sublist appended (map Py.lower output_bands) /\
    Forall (fun b => (b ∉ map Py.lower input_bands) /\ (b ∈ registered) /\
                     Py.lower b = b) appended /\
    Forall (fun b => Py.lower b ∈ map Py.lower input_bands ++ appended) output_bands.
Proof.
  unfold add_indices. intros Hr.
  destruct (add_bands _ _) as [st|] eqn:Hst; [|discriminate Hr].
  simpl in Hr. injection Hr as <-.
  pose proof (add_bands_names _ _ _ Hst) as [_ Hcover].
  apply add_bands_growth in Hst
    as (appended & planes & Hn & _ & _ & _ & _ & Hsub & Hfresh & Hnd & Hreg);
    [|apply lower_map_lowered].
  exists appended. simpl in *. rewrite Hn in *. repeat split; try done.
  - apply Forall_forall. intros b Hb. repeat split.
    + rewrite Forall_forall in Hfresh. by apply Hfresh.
    + rewrite Forall_forall in Hreg. by apply Hreg.
    + eapply elem_of_sublist in Hb; [|exact Hsub].
      apply list_elem_of_fmap in Hb as (b' & -> & _). apply lower_idemp.
  - apply Forall_forall. intros b Hb. apply Hcover.
    apply list_elem_of_fmap. by exists b.
Qed.

Lemma add_indices_names_witness :
  exists r,
    add_indices (pixel_raster ["blue"; "green"; "red"; "nir1"])
      ["Blue"; "Green"; "Red"; "NIR1"] ["NDVI"; "red"; "ndvi"; "SR"; "Ndvi"] = Ok r /\
    exists appended,
      attrs_band_names r
      = Some (map Py.lower ["Blue"; "Green"; "Red"; "NIR1"] ++ appended) /\
      NoDup appended /\
      sublist appended (map Py.lower ["NDVI"; "red"; "ndvi"; "SR"; "Ndvi"]) /\
      Forall (fun b => (b ∉ map Py.lower ["Blue"; "Green"; "Red"; "NIR1"]) /\
                       (b ∈ registered) /\ Py.lower b = b) appended /\
      Forall (fun b => Py.lower b
                       ∈ map Py.lower ["Blue"; "Green"; "Red"; "NIR1"] ++ appended)
             ["NDVI"; "red"; "ndvi"; "SR"; "Ndvi"].
Proof.
  eexists. split; [reflexivity|].
  apply (add_indices_names (pixel_raster ["blue"; "green"; "red"; "nir1"]) _
           ["Blue"; "Green"; "Red"; "NIR1"] ["NDVI"; "red"; "ndvi"; "SR"; "Ndvi"]).
  reflexivity.
Defined.

(** The bands given are kept, in place, at the head of the result, and the
    appended bands are numbered on from the number of input names: the
    coordinates do not depend on how many bands the raster has or on the
    coordinates it came with. *)
Theorem add_indices_coordinates {F : Type} `{Arith F}
    (xr r : DataArray F) (input_bands output_bands : list string) :
  add_indices xr input_bands output_bands = Ok r ->
  exists k,
    length (values r) = (length (values xr) + k)%nat /\
    take (length (values xr)) (values r) = values xr /\
    band r = band xr ++ map Z.of_nat (seq (S (length input_bands)) k).
Proof.
  unfold add_indices. intros Hr.
  destruct (add_bands _ _) as [st|] eqn:Hst; [|discriminate Hr].
  simpl in Hr. injection Hr as <-.
  apply add_bands_growth in Hst
    as (appended & planes & _ & Hv & Hlen & Hb & _); [|apply lower_map_lowered].
  exists (length appended). simpl in *. rewrite Hv, Hb, length_map.
  repeat split.
  - rewrite length_app. lia.
  - by rewrite take_app_length.
Qed.

Lemma add_indices_coordinates_witness :
  exists r,
    add_indices
      {| values := [[[Px "r"]]; [[Px "n"]]; [[Px "x"]]]; band := [10; 20; 30]%Z;
         attrs_band_names := None |}
      ["red"; "nir1"] ["ndvi"; "sr"] = Ok r /\
    exists k,
      length (values r) = (3 + k)%nat /\
      take 3 (values r) = [[[Px "r"]]; [[Px "n"]]; [[Px "x"]]] /\
      band r = [10; 20; 30]%Z ++ map Z.of_nat (seq 3 k).
Proof.
  eexists. split; [reflexivity|].
  apply (add_indices_coordinates
           {| values := [[[Px "r"]]; [[Px "n"]]; [[Px "x"]]]; band := [10; 20; 30]%Z;
              attrs_band_names := None |} _
           ["red"; "nir1"] ["ndvi"; "sr"]).
  reflexivity.
Defined.

Lemma add_bands_app {F : Type} `{Arith F} (st : frame (F := F)) l1 l2 :
  add_bands st (l1 ++ l2) = st' ← add_bands st l1; add_bands st' l2.
Proof.
  revert st. induction l1 as [|b l1 IH]; intros st; simpl; [done|].
  destruct (add_band st b) as [st1|]; simpl; [apply IH|done].
Qed.

(** An output name that is neither an input name nor a registered index
    name, both judged on lower-cased forms, makes [add_indices] raise the
    invalid-mapping error as soon as it is reached; the message carries the
    lower-cased name, not the name as given. *)
Theorem add_indices_unknown_name {F : Type} `{Arith F}
    (xr : DataArray F) (input_bands pre post : list string) (b : string) :
  Forall (fun a => Py.lower a ∈ map Py.lower input_bands) pre ->
  Py.lower b ∉ map Py.lower input_bands ->
  Py.lower b ∉ registered ->
  add_indices xr input_bands (pre ++ b :: post)
  = Raise (ValueError ("Invalid indices mapping: " ++ Py.lower b ++ ".")).
Proof.
  rename input_bands into inputs.
  intros Hpre Hnew Hunknown. unfold add_indices.
  rewrite map_app, add_bands_app, add_bands_present.
  - apply mem_false in Hnew. simpl. unfold add_band, enter. simpl.
    rewrite Hnew. simpl. unfold _get_index_function.
    rewrite lower_idemp, (registry_lookup_None _ Hunknown). done.
  - intros a Ha. apply list_elem_of_fmap in Ha as (a' & -> & Ha').
    rewrite Forall_forall in Hpre. by apply Hpre.
Qed.

Lemma add_indices_unknown_name_witness :
  add_indices (pixel_raster ["blue"; "green"; "red"; "nir1"])
    ["blue"; "green"; "red"; "nir1"] (["Red"; "nir1"] ++ "EVI" :: ["ndvi"])
  = Raise (ValueError "Invalid indices mapping: evi.").
Proof.
  apply (add_indices_unknown_name (pixel_raster ["blue"; "green"; "red"; "nir1"])
           ["blue"; "green"; "red"; "nir1"] ["Red"; "nir1"] ["ndvi"] "EVI").
  - repeat constructor; apply mem_true; reflexivity.
  - apply mem_false. reflexivity.
  - apply mem_false. reflexivity.
Defined.

(** ** Appended bands are computed from the bands given *)

Section Stability.
Context {F : Type} `{Arith F}.






End Stability.


Section Computed.
Context {F : Type} `{Arith F}.



End Computed.



(** ** Rasters without a band coordinate *)

Lemma add_bands_without_coordinate {F : Type} `{Arith F}
    (st st' : frame (F := F)) output_bands :
  xraster_band st = [] ->
  add_bands st output_bands = Ok st' ->
  st' = st /\ forall b, b ∈ output_bands -> b ∈ input_bands st.
Proof.
  intros Hband. induction output_bands as [|band_id rest IH]; simpl.
  - intros [= <-]. split; [done|]. intros b Hb. by apply elem_of_nil in Hb.
  - destruct (add_band st band_id) as [st1|] eqn:Hadd; simpl; [|done].
    pose proof (add_band_coordinate _ _ _ Hadd) as Hcoord.
    apply add_band_cases in Hadd as [[Hin ->]|(Hnew & _)].
    + intros Hrest. destruct (IH Hrest) as [-> Hall]. split; [done|].
      intros b Hb. apply elem_of_cons in Hb as [->|Hb]; [done|by apply Hall].
    + by destruct (Hcoord Hnew).
Qed.

(** On a raster whose band dimension has no coordinate, [add_indices] can
    only return when there is nothing to append: every output name is then an
    input name (lower-cased) and the result has the bands given, no more. As
    soon as a band has to be appended the call raises. *)
Theorem add_indices_needs_coordinate {F : Type} `{Arith F}
    (xr r : DataArray F) (input_bands output_bands : list string) :
  band xr = [] ->
  add_indices xr input_bands output_bands = Ok r ->
  r = {| values := values xr; band := [];
         attrs_band_names := Some (map Py.lower input_bands) |}
  /\ Forall (fun b => Py.lower b ∈ map Py.lower input_bands) output_bands.
Proof.
  rename input_bands into inputs.
  unfold add_indices. intros Hband Hr.
  destruct (add_bands _ _) as [st|] eqn:Hst; [|discriminate Hr].
  simpl in Hr. injection Hr as <-.
  apply add_bands_without_coordinate in Hst as [-> Hall]; [|done].
  split.
  - unfold xraster, enter. simpl. by rewrite Hband.
  - apply Forall_forall. intros b Hb. apply Hall.
    apply list_elem_of_fmap. by exists b.
Qed.

Lemma add_indices_needs_coordinate_witness :
  {| values := [[[Px "b"]]; [[Px "g"]]]; band := [];
     attrs_band_names := Some (map Py.lower ["Blue"; "Green"]) |}
  = {| values := [[[Px "b"]]; [[Px "g"]]]; band := [];
       attrs_band_names := Some (map Py.lower ["Blue"; "Green"]) |}
  /\ Forall (fun b => Py.lower b ∈ map Py.lower ["Blue"; "Green"]) ["green"; "BLUE"].
Proof.
  apply (add_indices_needs_coordinate
           {| values := [[[Px "b"]]; [[Px "g"]]]; band := [];
              attrs_band_names := None |}
           _ ["Blue"; "Green"] ["green"; "BLUE"]).
  - reflexivity.
  - reflexivity.
Defined.

(** ** What [get_optimizer] lets through *)

(** Only [NameError] is turned into an exit. Every other exception of the
    evaluation reaches the caller unchanged, no [NameError] ever does, and an
    object is returned only if the evaluation returned it. *)
Theorem get_optimizer_passes_on {object : Type} (eval : string -> result object)
    (tf sm tfa optimizer : string) :
  (forall e,
      (forall msg, e <> NameError msg) ->
      eval optimizer = Raise e ->
      get_optimizer eval tf sm tfa optimizer = Raise e)
  /\ (forall msg, get_optimizer eval tf sm tfa optimizer <> Raise (NameError msg))
  /\ (forall value,
        get_optimizer eval tf sm tfa optimizer = Ok value ->
        eval optimizer = Ok value).
Proof.
  unfold get_optimizer. split; [|split].
  - intros e Hother ->. destruct e; try done. by destruct (Hother msg).
  - intros msg. destruct (eval optimizer) as [v|[]]; discriminate.
  - intros value. destruct (eval optimizer) as [v|[]]; try discriminate.
    by intros [= ->].
Qed.

Lemma get_optimizer_passes_on_witness :
  get_optimizer toy_eval "<module 'tensorflow'>" "<module 'segmentation_models'>"
                "<module 'tensorflow_addons'>" "tf.keras.optimizers.Adam("
  = Raise (OtherError "SyntaxError").
Proof.
  apply (proj1 (get_optimizer_passes_on toy_eval _ _ _ "tf.keras.optimizers.Adam(")).
  - discriminate.
  - reflexivity.
Defined.
